(** * unit_converter: conversion factors between unit strings

    A shallow embedding of [unit_converter.py] and the properties of its
    registry lookup, expression resolver, compatibility test and
    conversion cache.

    Conventions of the embedding
    - a Python [str] is a [string]; the characters the validation accepts
      are all ASCII, and every other character is rejected by its first
      check;
    - a Python [float] is a primitive binary64 [float]; [float(...)] of a
      digit string, [*] and [/] are the IEEE 754 operations;
    - a raised exception is the [Raise] case of [result];
    - the exponent dict is an association list in insertion order, the
      conversion cache a finite map keyed by the pair of strings. *)

From Stdlib Require Import Floats ZArith List Ascii String Permutation Lia Bool.
From Equations Require Import Equations.
From Equations.Prop Require Import Logic.
From stdpp Require Import gmap strings.

Set Warnings "-inexact-float".
#[local] Arguments String.append !s1 s2 : simpl nomatch.

(** ** Exceptions and results *)

Inductive exn : Type :=
| NameError_invalid_character (c : ascii) (unit : string)
| NameError_unbalanced_brackets (unit : string)
| NameError_not_a_valid_unit (token unit : string)
| NameError_units_incompatible (source_unit target_unit : string)
| TypeError_not_subscriptable
| KeyError (key : string)
| ZeroDivisionError
| OverflowError.

Inductive result (A : Type) : Type :=
| Ok (a : A)
| Raise (e : exn).
Arguments Ok {A} a.
Arguments Raise {A} e.

Definition bind {A B : Type} (r : result A) (k : A -> result B) : result B :=
  match r with
  | Ok a => k a
  | Raise e => Raise e
  end.

Notation "'let*' x ':=' r 'in' k" := (bind r (fun x => k))
  (at level 10, x name, r at level 100, k at level 200).

(** The exceptions the program raises on purpose: every [raise] of the
    source is a [NameError] with a message. *)
Definition is_NameError (e : exn) : bool :=
  match e with
  | NameError_invalid_character _ _ | NameError_unbalanced_brackets _
  | NameError_not_a_valid_unit _ _ | NameError_units_incompatible _ _ => true
  | _ => false
  end.

(** ** Characters and scanning *)

Definition in_range (lo hi : N) (c : ascii) : bool :=
  ((lo <=? N_of_ascii c) && (N_of_ascii c <=? hi))%N.

(** [[a-zA-Z]] *)
Definition is_letter (c : ascii) : bool :=
  in_range 65 90 c || in_range 97 122 c.

(** [[0-9]] *)
Definition is_digit (c : ascii) : bool := in_range 48 57 c.

(** [\s] on the ASCII range (Python's [str.isspace]). *)
Definition is_space (c : ascii) : bool :=
  in_range 9 13 c || in_range 28 32 c.

Definition is_char (x c : ascii) : bool := Ascii.eqb x c.

(** The complement of the class [[^a-zA-Z0-9/*\^\(\)\[\] ]]. *)
Definition is_allowed (c : ascii) : bool :=
  is_letter c || is_digit c ||
  existsb (is_char c) ["/"; "*"; "^"; "("; ")"; "["; "]"; " "]%char.

(** [[^/*]] *)
Definition not_slash_star (c : ascii) : bool :=
  negb (is_char c "/"%char || is_char c "*"%char).

Definition snoc (s : string) (c : ascii) : string := s +:+ String c "".

Definition is_empty (s : string) : bool :=
  match s with "" => true | _ => false end.

(** The longest prefix of [s] in the class [p], and the rest. *)
Fixpoint span (p : ascii -> bool) (s : string) : string * string :=
  match s with
  | "" => ("", "")
  | String c s' =>
      if p c then let '(a, b) := span p s' in (String c a, b)
      else ("", s)
  end.

Fixpoint find_char (p : ascii -> bool) (s : string) : option ascii :=
  match s with
  | "" => None
  | String c s' => if p c then Some c else find_char p s'
  end.

(** [s.count(c)] for a single character. *)
Fixpoint count_char (x : ascii) (s : string) : nat :=
  match s with
  | "" => 0
  | String c s' => (if is_char x c then 1 else 0) + count_char x s'
  end.

(** [s.replace(" ", "")] *)
Fixpoint remove_spaces (s : string) : string :=
  match s with
  | "" => ""
  | String c s' =>
      if is_char c " "%char then remove_spaces s' else String c (remove_spaces s')
  end.

Definition flush (run : string) (l : list string) : list string :=
  if is_empty run then l else run :: l.

(** [[res[0] for res in re.finditer(r"[a-zA-Z]+", s)]]: the maximal runs
    of letters, left to right; [run] is the run being read. *)
Fixpoint letter_runs_from (run s : string) : list string :=
  match s with
  | "" => flush run []
  | String c s' =>
      if is_letter c then letter_runs_from (snoc run c) s'
      else flush run (letter_runs_from "" s')
  end.

Definition letter_runs (s : string) : list string := letter_runs_from "" s.

(** [re.sub("[a-zA-Z]+", lambda res: f(res[0]), s)] for an [f] that may
    raise. *)
Fixpoint sub_letter_runs_from (f : string -> result string) (run s : string)
  : result string :=
  match s with
  | "" => if is_empty run then Ok "" else f run
  | String c s' =>
      if is_letter c then sub_letter_runs_from f (snoc run c) s'
      else
        let* r := (if is_empty run then Ok "" else f run) in
        let* rest := sub_letter_runs_from f "" s' in
        Ok (r +:+ String c rest)
  end.

Definition sub_letter_runs (f : string -> result string) (s : string)
  : result string :=
  sub_letter_runs_from f "" s.

(** ** The registry tables *)

(** [UNITS_SI] is a Python set: its iteration order is not fixed.  The
    list below is the order of the source text; [_get_si_unit_in] takes
    the order as an argument, and [get_si_unit_order] shows that the
    order does not matter on a run of letters, which is all the program
    ever looks up. *)
Definition UNITS_SI : list string :=
  [ "s"; "m"; "g"; "A"; "K"; "mol"; "cd"; "rad"; "sr"; "Hz"; "N"; "Pa"; "J";
    "W"; "C"; "V"; "F"; "Ohm"; "S"; "Wb"; "T"; "H"; "Celsius"; "lm"; "lx";
    "Bq"; "Gy"; "Sv"; "kat" ].

Definition PREFIX_SI : list (string * float) :=
  [ ("f", 1e-15); ("p", 1e-12); ("n", 1e-9); ("mu", 1e-6); ("m", 1e-3);
    ("c", 1e-2); ("d", 1e-1); ("da", 1e1); ("h", 1e2); ("k", 1e3);
    ("M", 1e6); ("G", 1e9); ("T", 1e12); ("P", 1e15) ]%float.

(** The multiplier of ["h"] is the integer [3600] in the source; it is
    only ever used as the base of a float power, which converts it. *)
Definition NON_SI_MAP : list (string * (string * float)) :=
  [ ("in", ("m", 0.0254)); ("ft", ("m", 0.3048)); ("yd", ("m", 0.9144));
    ("mi", ("m", 1609.344)); ("gr", ("g", 0.06479891));
    ("oz", ("g", 28.3495231)); ("qr", ("g", 11339.80925));
    ("qtr", ("g", 11339.80925)); ("st", ("g", 6350.29318));
    ("lb", ("g", 453.59237)); ("t", ("g", 907184.74));
    ("floz", ("m^3", 2.95735296e-5)); ("gi", ("m^3", 1.18294118e-4));
    ("pt", ("m^3", 4.73176473e-4)); ("qt", ("m^3", 9.46352946e-4));
    ("gal", ("m^3", 3.78541178)); ("acre", ("m^2", 4046.85642));
    ("h", ("s", 3600)); ("lightyear", ("m", 9.4605284e15));
    ("l", ("m^3", 0.001)) ]%float.

(** Lookup in a dict literal with distinct keys. *)
Fixpoint table_get {V : Type} (k : string) (t : list (string * V)) : option V :=
  match t with
  | [] => None
  | (k', v) :: t' => if String.eqb k k' then Some v else table_get k t'
  end.

(** ** _get_si_unit *)

(** [s[-1]] and [s[:-1]] of a string that is not empty. *)
Fixpoint last_char (s : string) : option ascii :=
  match s with
  | "" => None
  | String c "" => Some c
  | String _ s' => last_char s'
  end.

Fixpoint drop_last (s : string) : string :=
  match s with
  | "" => ""
  | String c "" => ""
  | String c s' => String c (drop_last s')
  end.

(** The text before [pat] when [s] ends with [pat]. *)
Fixpoint strip_suffix (pat s : string) : option string :=
  if String.eqb s pat then Some ""
  else
    match s with
    | "" => None
    | String c s' => option_map (String c) (strip_suffix pat s')
    end.

(** [re.search(pat + "$", unit).regs[0][0]] for a [pat] without special
    characters: [$] matches just before a newline that ends the string,
    and at the end of the string; the leftmost match wins. *)
Definition search_at_end (pat unit : string) : option nat :=
  let before_newline :=
    match last_char unit with
    | Some "010"%char => strip_suffix pat (drop_last unit)
    | _ => None
    end in
  match before_newline with
  | Some before => Some (String.length before)
  | None => option_map String.length (strip_suffix pat unit)
  end.

(** One round of the loop over [UNITS_SI]: [Some] when the round
    returns, [None] when it continues. *)
Definition try_si_unit (unit unit_si : string) : option (string * float) :=
  match search_at_end unit_si unit with
  | None => None
  | Some 0 => Some (unit_si, 1%float)
  | Some start =>
      match table_get (substring 0 start unit) PREFIX_SI with
      | Some multiplier => Some (unit_si, multiplier)
      | None => None
      end
  end.

Fixpoint first_some {A B : Type} (f : A -> option B) (l : list A) : option B :=
  match l with
  | [] => None
  | a :: l' => match f a with Some b => Some b | None => first_some f l' end
  end.

Definition _get_si_unit_in (order : list string) (unit : string)
  : option (string * float) :=
  match first_some (try_si_unit unit) order with
  | Some r => Some r
  | None => table_get unit NON_SI_MAP
  end.

Definition _get_si_unit (unit : string) : option (string * float) :=
  _get_si_unit_in UNITS_SI unit.

(** ** _ensure_si_unit *)

Definition is_None {A : Type} (o : option A) : bool :=
  match o with None => true | Some _ => false end.

Definition _ensure_si_unit (unit : string) : result () :=
  match find_char (fun c => negb (is_allowed c)) unit with
  | Some c => Raise (NameError_invalid_character c unit)
  | None =>
      if negb (count_char "("%char unit =? count_char ")"%char unit)
      then Raise (NameError_unbalanced_brackets unit)
      else
        match List.find (fun tok => is_None (_get_si_unit tok)) (letter_runs unit) with
        | Some tok => Raise (NameError_not_a_valid_unit tok unit)
        | None => Ok ()
        end
  end.

(** ** The exponent dict *)

(** A Python dict from unit name to exponent, in insertion order. *)
Definition dict : Type := list (string * float).

Fixpoint dict_get (k : string) (d : dict) : option float :=
  match d with
  | [] => None
  | (k', v) :: d' => if String.eqb k k' then Some v else dict_get k d'
  end.

(** [d[k] = v]: an existing key keeps its place. *)
Fixpoint dict_set (k : string) (v : float) (d : dict) : dict :=
  match d with
  | [] => [(k, v)]
  | (k', v') :: d' =>
      if String.eqb k k' then (k', v) :: d' else (k', v') :: dict_set k v d'
  end.

(** [d[k] *= x]: the item is read first (a missing key raises), then the
    right-hand side is evaluated. *)
Definition dict_imul (k : string) (x : result float) (d : dict) : result dict :=
  match dict_get k d with
  | None => Raise (KeyError k)
  | Some v => let* y := x in Ok (dict_set k (v * y)%float d)
  end.

(** ** Exponent syntax *)

Fixpoint digits_value (acc : Z) (s : string) : Z :=
  match s with
  | "" => acc
  | String c s' => digits_value (10 * acc + (Z.of_N (N_of_ascii c) - 48)) s'
  end.

(** [float(s)] for a string of decimal digits: the nearest binary64
    number, infinity when it is out of range. *)
Definition float_of_digits (s : string) : float :=
  SF2Prim (binary_normalize prec emax (digits_value 0 s) 0 false).

(** Python's [x / y] on floats. *)
Definition float_div (x y : float) : result float :=
  if (y =? 0)%float then Raise ZeroDivisionError else Ok (x / y)%float.

(** What [re.match(r"([0-9]+/[0-9]+|[0-9]+)", s)] matched. *)
Inductive exponent_match : Type :=
| Fraction (num denom : string)
| Integer (digits : string).

(** The match and the text after it; [None] when there is no match.
    The first alternative needs a digit on both sides of the slash. *)
Definition match_exponent (s : string) : option (exponent_match * string) :=
  let '(num, rest) := span is_digit s in
  if is_empty num then None
  else
    match rest with
    | String "/" rest' =>
        let '(denom, rest'') := span is_digit rest' in
        if is_empty denom then Some (Integer num, rest)
        else Some (Fraction num denom, rest'')
    | _ => Some (Integer num, rest)
    end.

(** The value of the matched exponent: the two branches on
    ["/" in res[0]]. *)
Definition exponent_value (m : exponent_match) : result float :=
  match m with
  | Fraction num denom => float_div (float_of_digits num) (float_of_digits denom)
  | Integer digits => Ok (float_of_digits digits)
  end.

(** ** _get_unit_exponents *)

(** [re.sub(r"(?<=[^/*])\s+(?=[^/*])", "*", unit)].  [prev] is the
    character before the current position and [skip] the number of
    characters left of a run that has been replaced.  At a whitespace
    character with a good look-behind, [\s+] first takes the whole run;
    when the look-ahead fails there it gives back one character, after
    which the look-ahead sees a whitespace and succeeds. *)
Fixpoint sub_spaces (prev : option ascii) (skip : nat) (s : string) : string :=
  match s with
  | "" => ""
  | String c s' =>
      match skip with
      | S k => sub_spaces (Some c) k s'
      | 0 =>
          if is_space c && match prev with Some p => not_slash_star p | None => false end
          then
            let '(run, rest) := span is_space s' in
            let n := String.length run in
            match rest, n with
            | String a _, _ =>
                if not_slash_star a then String "*" (sub_spaces (Some c) n s')
                else
                  match n with
                  | 0 => String c (sub_spaces (Some c) 0 s')
                  | S n' => String "*" (sub_spaces (Some c) n' s')
                  end
            | "", 0 => String c (sub_spaces (Some c) 0 s')
            | "", S n' => String "*" (sub_spaces (Some c) n' s')
            end
          else String c (sub_spaces (Some c) 0 s')
      end
  end.

(** The text up to the first bracket, that bracket, and the text after. *)
Fixpoint until_bracket (s : string) : option (string * ascii * string) :=
  match s with
  | "" => None
  | String c s' =>
      if is_char c "("%char || is_char c ")"%char then Some ("", c, s')
      else
        match until_bracket s' with
        | Some (a, b, r) => Some (String c a, b, r)
        | None => None
        end
  end.

(** [re.search(r"\([^()]*\)", s)]: the text before the leftmost group
    without brackets inside, the inside of the group, the text after. *)
Fixpoint search_bracket (s : string) : option (string * string * string) :=
  match s with
  | "" => None
  | String c s' =>
      let continue :=
        match search_bracket s' with
        | Some (pre, inner, post) => Some (String c pre, inner, post)
        | None => None
        end in
      if is_char c "("%char then
        match until_bracket s' with
        | Some (inner, b, post) =>
            if is_char b ")"%char then Some ("", inner, post) else continue
        | None => continue
        end
      else continue
  end.

(** [for res in re.finditer(r"[a-zA-Z]+", text): d[res[0]] *= x] *)
Fixpoint imul_all (names : list string) (x : float) (d : dict) : result dict :=
  match names with
  | [] => Ok d
  | name :: names' =>
      let* d' := dict_imul name (Ok x) d in imul_all names' x d'
  end.

(** One round of the [while] loop on the match [(str_pre, inner,
    str_post)]: the new [_unit] and the updated dict. *)
Definition fold_bracket (str_pre inner str_post : string) (d : dict)
  : result (string * dict) :=
  let* ep :=
    match str_post with
    | String "^" after =>
        match match_exponent after with
        | None => Raise TypeError_not_subscriptable
        | Some (m, rest) =>
            let* v := exponent_value m in Ok ((1 * v)%float, rest)
        end
    | _ => Ok (1%float, str_post)
    end in
  let '(exponent, str_post) := ep in
  let '(exponent, str_pre) :=
    match last_char str_pre with
    | Some "/"%char => ((exponent * -1)%float, drop_last str_pre +:+ "*")
    | _ => (exponent, str_pre)
    end in
  let* d' := imul_all (letter_runs inner) exponent d in
  Ok (str_pre +:+ inner +:+ str_post, d').

(** A round of the loop makes [_unit] shorter by the two brackets at
    least: the loop ends. *)
Lemma length_append (a b : string) :
  String.length (a +:+ b) = String.length a + String.length b.
Proof. induction a as [|c a IH]; simpl; [reflexivity | now rewrite IH]. Qed.

Lemma span_length (p : ascii -> bool) (s a b : string) :
  span p s = (a, b) -> String.length s = String.length a + String.length b.
Proof.
  revert a b. induction s as [|c s IH]; simpl; intros a b H.
  - now inversion H.
  - destruct (p c).
    + destruct (span p s) as [a' b'] eqn:E. inversion H; subst. simpl.
      now rewrite (IH a' b).
    + now inversion H.
Qed.

Lemma until_bracket_length (s a r : string) (b : ascii) :
  until_bracket s = Some (a, b, r) ->
  String.length s = String.length a + 1 + String.length r.
Proof.
  revert a. induction s as [|c s IH]; simpl; intros a H; [discriminate|].
  destruct (is_char c "(" || is_char c ")").
  - inversion H; subst. reflexivity.
  - destruct (until_bracket s) as [[[a' b'] r']|]; [|discriminate].
    inversion H; subst. simpl. now rewrite (IH a').
Qed.

Lemma search_bracket_length (s pre inner post : string) :
  search_bracket s = Some (pre, inner, post) ->
  String.length s =
    String.length pre + String.length inner + String.length post + 2.
Proof.
  revert pre. induction s as [|c s IH]; simpl; intros pre H; [discriminate|].
  assert (Hc : match search_bracket s with
               | Some (pre0, inner0, post0) => Some (String c pre0, inner0, post0)
               | None => None
               end = Some (pre, inner, post) ->
               S (String.length s) =
                 String.length pre + String.length inner + String.length post + 2).
  { destruct (search_bracket s) as [[[p i] q]|]; [|discriminate].
    intros E; inversion E; subst. simpl. rewrite (IH p); [lia | reflexivity]. }
  destruct (is_char c "("); [|auto].
  destruct (until_bracket s) as [[[i b] q]|] eqn:E; [|auto].
  destruct (is_char b ")"); [|auto].
  inversion H; subst. apply until_bracket_length in E. simpl. lia.
Qed.

Lemma last_char_drop_last_length (s : string) (c : ascii) :
  last_char s = Some c -> String.length (drop_last s) + 1 = String.length s.
Proof.
  induction s as [|a s IH]; simpl; [discriminate|].
  destruct s as [|b s]; [reflexivity|]. intros H. simpl in *.
  specialize (IH H). lia.
Qed.

Lemma match_exponent_length (s rest : string) (m : exponent_match) :
  match_exponent s = Some (m, rest) -> String.length rest <= String.length s.
Proof.
  unfold match_exponent. destruct (span is_digit s) as [num r] eqn:E.
  apply span_length in E. destruct (is_empty num); [discriminate|].
  destruct r as [|c r'].
  - intros H; inversion H; subst. lia.
  - destruct (Ascii.eqb c "/") eqn:Ec.
    + apply Ascii.eqb_eq in Ec; subst c.
      destruct (span is_digit r') as [denom r''] eqn:E'.
      apply span_length in E'. simpl in E.
      destruct (is_empty denom); intros H; inversion H; subst; simpl; lia.
    + assert (Some (Integer num, String c r') = Some (m, rest) ->
              String.length rest <= String.length s).
      { intros H; inversion H; subst. lia. }
      destruct c as [[] [] [] [] [] [] [] []]; try exact H; discriminate.
Qed.

Lemma fold_bracket_length (pre inner post _unit : string) (d d' : dict) :
  fold_bracket pre inner post d = Ok (_unit, d') ->
  String.length _unit <= String.length pre + String.length inner + String.length post.
Proof.
  unfold fold_bracket. intros H.
  destruct (match post with
            | String "^" after => _
            | _ => Ok (1%float, post)
            end) as [[e post']|] eqn:E1; [|discriminate].
  assert (Hpost : String.length post' <= String.length post).
  { destruct post as [|c after]; [inversion E1; subst; lia|].
    destruct (Ascii.eqb c "^") eqn:Ec.
    - apply Ascii.eqb_eq in Ec; subst c.
      destruct (match_exponent after) as [[m rest]|] eqn:Em; [|discriminate].
      apply match_exponent_length in Em.
      destruct (exponent_value m); [|discriminate]. inversion E1; subst. simpl. lia.
    - assert (Ok (1%float, String c after) = Ok (e, post') ->
              String.length post' <= String.length (String c after)).
      { intros H'; inversion H'; subst. lia. }
      destruct c as [[] [] [] [] [] [] [] []]; try (apply H0; exact E1); discriminate. }
  simpl in H.
  destruct (match last_char pre with
            | Some "/"%char => ((e * -1)%float, drop_last pre +:+ "*")
            | _ => (e, pre)
            end) as [e' pre'] eqn:E2.
  assert (Hpre : String.length pre' <= String.length pre).
  { destruct (last_char pre) as [c|] eqn:El; [|inversion E2; subst; lia].
    destruct (Ascii.eqb c "/") eqn:Ec.
    - apply Ascii.eqb_eq in Ec; subst c. inversion E2; subst.
      rewrite length_append. apply last_char_drop_last_length in El. simpl. lia.
    - assert ((e, pre) = (e', pre') -> String.length pre' <= String.length pre).
      { intros H'; inversion H'; subst. lia. }
      destruct c as [[] [] [] [] [] [] [] []]; try (apply H0; exact E2); discriminate. }
  destruct (imul_all (letter_runs inner) e' d); [|discriminate].
  inversion H; subst. rewrite !length_append. lia.
Qed.

(** The [while] loop that removes brackets from the inside out. *)
Equations? remove_brackets (_unit : string) (d : dict) : result (string * dict)
  by wf (String.length _unit) lt :=
remove_brackets _unit d with inspect (search_bracket _unit) := {
  | exist _ None _ => Ok (_unit, d)
  | exist _ (Some (str_pre, inner, str_post)) Hs
      with inspect (fold_bracket str_pre inner str_post d) := {
      | exist _ (Raise e) _ => Raise e
      | exist _ (Ok (_unit', d')) Hf => remove_brackets _unit' d' } }.
Proof.
  apply search_bracket_length in Hs. apply fold_bracket_length in Hf. lia.
Qed.

(** The loop over [re.finditer(r"[a-zA-Z]+\^", _unit)]: every maximal
    run of letters that a [^] follows; the text after the [^] must start
    with an exponent.  [run] is the run being read. *)
Fixpoint handle_exponents (run _unit : string) (d : dict) : result dict :=
  match _unit with
  | "" => Ok d
  | String c str_post =>
      if is_letter c then handle_exponents (snoc run c) str_post d
      else if is_char c "^"%char && negb (is_empty run) then
        match match_exponent str_post with
        | None => Raise TypeError_not_subscriptable
        | Some (m, _) =>
            let* d' := dict_imul run (exponent_value m) d in
            handle_exponents "" str_post d'
        end
      else handle_exponents "" str_post d
  end.

(** The loop over [re.finditer(r"/[a-zA-Z]+", _unit)]: every slash
    that a letter follows, with the maximal run of letters after it.
    [run] is [Some] of the letters read since the last slash. *)
Definition negate (run : option string) (d : dict) : result dict :=
  match run with
  | Some (String c r) => dict_imul (String c r) (Ok (-1)%float) d
  | _ => Ok d
  end.

Fixpoint handle_divisions (run : option string) (_unit : string) (d : dict)
  : result dict :=
  match _unit with
  | "" => negate run d
  | String c rest =>
      match run with
      | Some r =>
          if is_letter c then handle_divisions (Some (snoc r c)) rest d
          else
            let* d' := negate run d in
            handle_divisions (if is_char c "/"%char then Some "" else None) rest d'
      | None =>
          handle_divisions (if is_char c "/"%char then Some "" else None) rest d
      end
  end.

(** [{unit[0]: 1.0 for unit in re.finditer(r"[a-zA-Z]+", unit)}] *)
Definition initial_exponents (unit : string) : dict :=
  fold_left (fun d name => dict_set name 1%float d) (letter_runs unit) [].

Definition _get_unit_exponents (unit : string) : result dict :=
  let* _ := _ensure_si_unit unit in
  let unit_exponents := initial_exponents unit in
  let _unit := sub_spaces None 0 unit in
  let _unit := remove_spaces _unit in
  let* r := remove_brackets _unit unit_exponents in
  let '(_unit, unit_exponents) := r in
  let* unit_exponents := handle_exponents "" _unit unit_exponents in
  handle_divisions None _unit unit_exponents.

(** ** units_compatible *)

(** [re.sub("[a-zA-Z]+", lambda res: _get_si_unit(res[0])[0], unit)] *)
Definition noprefix (unit : string) : result string :=
  sub_letter_runs
    (fun name =>
       match _get_si_unit name with
       | Some (unit_si, _) => Ok unit_si
       | None => Raise TypeError_not_subscriptable
       end) unit.

(** [unit2_exponents.get(name, "") != exponent]: a missing key gives a
    string, which differs from every float. *)
Definition differs (unit2_exponents : dict) (item : string * float) : bool :=
  match dict_get (fst item) unit2_exponents with
  | None => true
  | Some e => negb (e =? snd item)%float
  end.

Definition units_compatible (unit1 unit2 : string) : result bool :=
  let* _ := _ensure_si_unit unit1 in
  let* _ := _ensure_si_unit unit2 in
  let* unit1_noprefix := noprefix unit1 in
  let* unit2_noprefix := noprefix unit2 in
  let* unit1_exponents := _get_unit_exponents unit1_noprefix in
  let* unit2_exponents := _get_unit_exponents unit2_noprefix in
  if negb (length unit1_exponents =? length unit2_exponents) then Ok false
  else Ok (negb (existsb (differs unit2_exponents) unit1_exponents)).

(** ** unit_conversion_factor *)

(** [_conversion_factor_cache] *)
Abbreviation cache := (gmap (string * string) float).

(** [bool(x)] of a float: every float but the two zeros. *)
Definition truthy (x : float) : bool := negb (x =? 0)%float.

Section Conversion.

(** Python's [x ** y] on floats.  It is computed by the [pow] of the
    C library, which IEEE 754 does not pin down to the last bit, and
    raises [OverflowError] when the result is out of range. *)
Variable float_pow : float -> float -> result float.

(** [for unit, exponent in exponents.items():
       multiplier *= _get_si_unit(unit)[1] ** exponent] *)
Fixpoint multiply_units (exponents : dict) (multiplier : float) : result float :=
  match exponents with
  | [] => Ok multiplier
  | (unit, exponent) :: rest =>
      match _get_si_unit unit with
      | None => Raise TypeError_not_subscriptable
      | Some (_, m) =>
          let* p := float_pow m exponent in
          multiply_units rest (multiplier * p)%float
      end
  end.

(** The body of [unit_conversion_factor] after the cache lookup, up to
    the quotient. *)
Definition compute_factor (source_unit target_unit : string) : result float :=
  let* compatible := units_compatible source_unit target_unit in
  if negb compatible
  then Raise (NameError_units_incompatible source_unit target_unit)
  else
    let* source_exponents := _get_unit_exponents source_unit in
    let* target_exponents := _get_unit_exponents target_unit in
    let* multiplier_source := multiply_units source_exponents 1 in
    let* multiplier_target := multiply_units target_exponents 1 in
    float_div multiplier_source multiplier_target.

(** The function returns its value and the cache it leaves. *)
Definition unit_conversion_factor (source_unit target_unit : string)
    (_conversion_factor_cache : cache) : result float * cache :=
  let key := (source_unit, target_unit) in
  let miss :=
    match compute_factor source_unit target_unit with
    | Raise e => (Raise e, _conversion_factor_cache)
    | Ok factor =>
        (Ok factor,
         match _conversion_factor_cache !! key with
         | None => <[key := factor]> _conversion_factor_cache
         | Some _ => _conversion_factor_cache
         end)
    end in
  match _conversion_factor_cache !! key with
  | Some factor =>
      if truthy factor then (Ok factor, _conversion_factor_cache) else miss
  | None => miss
  end.

(** The caches the program can be in: empty at the start, then changed
    by calls of [unit_conversion_factor] only. *)
Inductive reachable : cache -> Prop :=
| reachable_empty : reachable ∅
| reachable_call (c : cache) (source_unit target_unit : string) :
    reachable c ->
    reachable (snd (unit_conversion_factor source_unit target_unit c)).

End Conversion.

(** ** A reference power *)

(** The integer a float stands for, when it stands for one. *)
Definition integral (y : float) : option Z :=
  match Prim2SF y with
  | S754_zero _ => Some 0%Z
  | S754_finite s m e =>
      let n :=
        if (0 <=? e)%Z then Some (Z.pos m * 2 ^ e)%Z
        else if (Z.pos m mod 2 ^ (- e) =? 0)%Z then Some (Z.pos m / 2 ^ (- e))%Z
        else None in
      if s then option_map Z.opp n else n
  | _ => None
  end.

(** [x ^ n] rounded to the nearest binary64 number, for a positive
    finite [x]: the power is computed exactly on the mantissa and the
    exponent of [x], and rounded once. *)
Definition rounded_power (x : float) (n : Z) : float :=
  match Prim2SF x with
  | S754_finite false m e =>
      let k := Z.abs n in
      if (0 <=? n)%Z
      then SF2Prim (binary_normalize prec emax (Z.pos m ^ k) (e * k) false)
      else SF2Prim (SFdiv prec emax (S754_finite false 1 0)
                      (S754_finite false (Z.to_pos (Z.pos m ^ k)) (e * k)))
  | _ => nan
  end.

(** A power function that is correctly rounded on integral exponents,
    with Python's overflow error; it stands in for the C library's [pow]
    where an example has to run.  No example takes another exponent, and
    on those it returns NaN. *)
Definition pow_integral (x y : float) : result float :=
  match integral y with
  | Some n =>
      let r := rounded_power x n in
      if is_infinity r then Raise OverflowError else Ok r
  | None => Ok nan
  end.

(** [float(n)] for an integer. *)
Definition float_of_Z (n : Z) : float :=
  SF2Prim (binary_normalize prec emax n 0 false).

(** The power function returns the correctly rounded [x ^ n]. *)
Definition correctly_rounded_at (float_pow : float -> float -> result float)
    (x : float) (n : Z) : Prop :=
  float_pow x (float_of_Z n) = Ok (rounded_power x n).
Arguments rounded_power x%_float n%_Z.
Arguments correctly_rounded_at float_pow x%_float n%_Z.

(** ** The examples of the source *)

Example rounded_power_values :
  rounded_power 1 1 = 1%float /\ rounded_power 1 (-2) = 1%float /\
  rounded_power 1000 1 = 1000%float /\
  rounded_power 3600 (-2) = (1 / 12960000)%float /\
  rounded_power 3600 (-2) = 7.7160493827160495e-08%float.
Proof. repeat split; vm_compute; reflexivity. Qed.

Example GHz_to_MHz :
  fst (unit_conversion_factor pow_integral "GHz" "MHz" ∅) = Ok 1000%float.
Proof. reflexivity. Qed.

Example pound_to_gram :
  fst (unit_conversion_factor pow_integral "lb" "g" ∅) = Ok 453.59237%float.
Proof. reflexivity. Qed.

Example pound_to_kilogram :
  fst (unit_conversion_factor pow_integral "lb" "kg" ∅) = Ok 0.45359237%float.
Proof. reflexivity. Qed.

Example nested_groups :
  _get_unit_exponents "kg/(s*(m K)^2)^1/2 A" =
    Ok [("kg", 1); ("s", -0.5); ("m", -1); ("K", -1); ("A", 1)]%float.
Proof. reflexivity. Qed.

Example division_by_zero_exponent :
  _get_unit_exponents "m^1/0" = Raise ZeroDivisionError.
Proof. reflexivity. Qed.

Example merged_token_after_group :
  _get_unit_exponents "(m)s^2" = Raise (KeyError "ms").
Proof. reflexivity. Qed.

(** * Properties *)

(** ** Strings *)

Lemma append_empty_r (s : string) : s +:+ "" = s.
Proof. induction s as [|c s IH]; simpl; [reflexivity | now rewrite IH]. Qed.

Lemma append_assoc (a b c : string) : (a +:+ b) +:+ c = a +:+ (b +:+ c).
Proof. induction a as [|x a IH]; simpl; [reflexivity | now rewrite IH]. Qed.

Lemma strip_suffix_sound (pat s q : string) :
  strip_suffix pat s = Some q -> s = q +:+ pat.
Proof.
  revert q. induction s as [|c s IH]; intros q; cbn [strip_suffix].
  - destruct (String.eqb "" pat) eqn:E; [|discriminate].
    apply String.eqb_eq in E. intros [= <-]. exact E.
  - destruct (String.eqb (String c s) pat) eqn:E.
    + apply String.eqb_eq in E. intros [= <-]. exact E.
    + destruct (strip_suffix pat s) as [q'|]; [|discriminate].
      intros [= <-]. simpl. now rewrite (IH q').
Qed.

Lemma strip_suffix_complete (pat q : string) :
  strip_suffix pat (q +:+ pat) = Some q.
Proof.
  induction q as [|c q IH].
  - change ("" +:+ pat) with pat.
    destruct pat; cbn [strip_suffix]; now rewrite String.eqb_refl.
  - change (String c q +:+ pat) with (String c (q +:+ pat)).
    cbn [strip_suffix].
    destruct (String.eqb (String c (q +:+ pat)) pat) eqn:E.
    + apply String.eqb_eq in E. apply (f_equal String.length) in E.
      simpl in E. rewrite length_append in E. lia.
    + now rewrite IH.
Qed.

Lemma strip_suffix_iff (pat s q : string) :
  strip_suffix pat s = Some q <-> s = q +:+ pat.
Proof.
  split; [apply strip_suffix_sound | intros ->; apply strip_suffix_complete].
Qed.

Lemma substring_prefix (q r : string) :
  substring 0 (String.length q) (q +:+ r) = q.
Proof.
  induction q as [|c q IH]; simpl; [now destruct r | now rewrite IH].
Qed.

(** Two ways to end the same string: the shorter ending ends the longer. *)
Lemma append_eq_split (p1 u1 p2 u2 : string) :
  p1 +:+ u1 = p2 +:+ u2 -> String.length u1 <= String.length u2 ->
  exists q, u2 = q +:+ u1 /\ p1 = p2 +:+ q.
Proof.
  revert p2. induction p1 as [|c p1 IH]; intros p2 H Hlen; simpl in H.
  - destruct p2 as [|c2 p2].
    + exists "". simpl in *. now subst.
    + apply (f_equal String.length) in H. simpl in H.
      rewrite length_append in H. lia.
  - destruct p2 as [|c2 p2]; simpl in H.
    + exists (String c p1). now subst.
    + injection H as -> H. destruct (IH p2 H Hlen) as (q & -> & ->).
      now exists q.
Qed.

Fixpoint all_chars (p : ascii -> bool) (s : string) : bool :=
  match s with
  | "" => true
  | String c s' => p c && all_chars p s'
  end.

Lemma last_char_all (p : ascii -> bool) (s : string) (c : ascii) :
  all_chars p s = true -> last_char s = Some c -> p c = true.
Proof.
  induction s as [|a s IH]; simpl; [discriminate|].
  intros [Ha Hs]%andb_prop. destruct s as [|b s].
  - now intros [= <-].
  - now apply IH.
Qed.

(** On a token of letters, [$] can only match at the very end. *)
Lemma search_at_end_letters (pat unit : string) :
  all_chars is_letter unit = true ->
  search_at_end pat unit = option_map String.length (strip_suffix pat unit).
Proof.
  intros Hl. unfold search_at_end.
  destruct (last_char unit) as [c|] eqn:E; [|reflexivity].
  pose proof (last_char_all _ _ _ Hl E) as Hc.
  destruct c as [[] [] [] [] [] [] [] []]; try reflexivity; discriminate.
Qed.

(** ** The registry lookup *)

Lemma table_get_In {V : Type} (k : string) (v : V) (t : list (string * V)) :
  table_get k t = Some v -> In (k, v) t.
Proof.
  induction t as [|[k' v'] t IH]; simpl; [discriminate|].
  destruct (String.eqb k k') eqn:E.
  - apply String.eqb_eq in E. intros [= ->]. left. now subst.
  - intros H. right. now apply IH.
Qed.

(** A round of the loop on a token of letters, by the text [q] that is
    left of the symbol. *)
Lemma try_si_unit_letters (unit unit_si : string) :
  all_chars is_letter unit = true ->
  try_si_unit unit unit_si =
    match strip_suffix unit_si unit with
    | None => None
    | Some "" => Some (unit_si, 1%float)
    | Some q =>
        match table_get q PREFIX_SI with
        | Some multiplier => Some (unit_si, multiplier)
        | None => None
        end
    end.
Proof.
  intros Hl. unfold try_si_unit. rewrite (search_at_end_letters _ _ Hl).
  destruct (strip_suffix unit_si unit) as [q|] eqn:E; [|reflexivity].
  apply strip_suffix_sound in E. subst unit.
  destruct q as [|c q]; [reflexivity|].
  cbn [option_map]. rewrite substring_prefix. reflexivity.
Qed.

(** No base symbol that properly ends another base symbol can be
    completed to a prefix by what is left of it: checked on the tables. *)
Definition no_overlap (u1 u2 : string) : bool :=
  match strip_suffix u1 u2 with
  | Some (String c q) =>
      forallb (fun entry => is_None (strip_suffix (String c q) (fst entry))) PREFIX_SI
  | _ => true
  end.

Lemma no_overlap_tables :
  forallb (fun u1 => forallb (no_overlap u1) UNITS_SI) UNITS_SI = true.
Proof. vm_compute. reflexivity. Qed.

Lemma try_si_unit_hit (unit unit_si : string) (r : string * float) :
  all_chars is_letter unit = true ->
  try_si_unit unit unit_si = Some r ->
  exists p, unit = p +:+ unit_si /\
            (p = "" \/ exists k, table_get p PREFIX_SI = Some k).
Proof.
  intros Hl. rewrite (try_si_unit_letters _ _ Hl).
  destruct (strip_suffix unit_si unit) as [q|] eqn:E; [|discriminate].
  apply strip_suffix_sound in E. intros H. exists q. split; [exact E|].
  destruct q as [|c q]; [now left|]. right.
  destruct (table_get (String c q) PREFIX_SI) as [k|]; [now exists k | discriminate].
Qed.

Lemma overlap_impossible (u1 u2 p1 p2 : string) :
  In u1 UNITS_SI -> In u2 UNITS_SI ->
  p1 +:+ u1 = p2 +:+ u2 -> String.length u1 <= String.length u2 ->
  (p1 = "" \/ exists k, table_get p1 PREFIX_SI = Some k) ->
  u1 = u2.
Proof.
  intros H1 H2 Heq Hlen Hp1.
  destruct (append_eq_split _ _ _ _ Heq Hlen) as (q & -> & ->).
  destruct q as [|c q]; [reflexivity | exfalso].
  pose proof no_overlap_tables as Hc.
  rewrite forallb_forall in Hc. specialize (Hc _ H1).
  rewrite forallb_forall in Hc. specialize (Hc _ H2).
  unfold no_overlap in Hc. rewrite strip_suffix_complete in Hc.
  destruct Hp1 as [Hp1 | [k Hk]].
  - destruct p2; discriminate.
  - apply table_get_In in Hk. rewrite forallb_forall in Hc.
    specialize (Hc _ Hk). cbn [fst] in Hc.
    rewrite strip_suffix_complete in Hc. discriminate.
Qed.

(** At most one base symbol answers for a token of letters. *)
Lemma try_si_unit_unique (unit u1 u2 : string) (r1 r2 : string * float) :
  all_chars is_letter unit = true ->
  In u1 UNITS_SI -> In u2 UNITS_SI ->
  try_si_unit unit u1 = Some r1 -> try_si_unit unit u2 = Some r2 -> u1 = u2.
Proof.
  intros Hl H1 H2 E1 E2.
  destruct (try_si_unit_hit _ _ _ Hl E1) as (p1 & Hu1 & Hp1).
  destruct (try_si_unit_hit _ _ _ Hl E2) as (p2 & Hu2 & Hp2).
  rewrite Hu1 in Hu2.
  destruct (Nat.le_ge_cases (String.length u1) (String.length u2)) as [Hle|Hge].
  - exact (overlap_impossible _ _ _ _ H1 H2 Hu2 Hle Hp1).
  - symmetry. exact (overlap_impossible _ _ _ _ H2 H1 (eq_sym Hu2) Hge Hp2).
Qed.

Section FirstSome.
Context {A B : Type} (f : A -> option B).

Lemma first_some_none (l : list A) :
  (forall a, In a l -> f a = None) -> first_some f l = None.
Proof.
  induction l as [|a l IH]; intros H; simpl; [reflexivity|].
  rewrite (H a) by now left. apply IH. intros b Hb. apply H. now right.
Qed.

(** When at most one element of [l] answers, its answer is the result
    in whatever order the list is walked. *)
Lemma first_some_unique (l : list A) (a : A) (b : B) :
  (forall x y bx by_, In x l -> In y l -> f x = Some bx -> f y = Some by_ -> x = y) ->
  In a l -> f a = Some b -> first_some f l = Some b.
Proof.
  induction l as [|x l IH]; intros Hu Ha Hb; simpl; [contradiction|].
  destruct (f x) as [bx|] eqn:Ex.
  - assert (x = a) as -> by (eapply Hu; eauto; now left). congruence.
  - destruct Ha as [->|Ha]; [congruence|].
    apply IH; auto. intros y z by_ bz Hy Hz. apply Hu; now right.
Qed.
End FirstSome.

(** The result does not depend on the order in which the set [UNITS_SI]
    is walked. *)
Lemma get_si_unit_order (order : list string) (unit : string) :
  Permutation order UNITS_SI ->
  all_chars is_letter unit = true ->
  _get_si_unit_in order unit = _get_si_unit unit.
Proof.
  intros Hp Hl. unfold _get_si_unit, _get_si_unit_in.
  assert (Hu : forall l, (forall x, In x l -> In x UNITS_SI) ->
               forall x y bx by_, In x l -> In y l ->
               try_si_unit unit x = Some bx -> try_si_unit unit y = Some by_ -> x = y).
  { intros l Hin x y bx by_ Hx Hy. apply (try_si_unit_unique unit); auto. }
  destruct (first_some (try_si_unit unit) UNITS_SI) as [r|] eqn:E.
  - assert (exists u, In u UNITS_SI /\ try_si_unit unit u = Some r) as (u & Hin & Hr).
    { clear -E. induction UNITS_SI as [|x l IH]; simpl in E; [discriminate|].
      destruct (try_si_unit unit x) eqn:Ex.
      - exists x. split; [now left | congruence].
      - destruct (IH E) as (u & Hin & Hr). exists u. split; [now right | exact Hr]. }
    rewrite (first_some_unique _ order u r); auto.
    + apply Hu. intros x Hx. eapply Permutation_in; eauto.
    + eapply Permutation_in; [symmetry; exact Hp | exact Hin].
  - rewrite first_some_none; [reflexivity|].
    intros a Ha. apply (Permutation_in _ Hp) in Ha.
    clear -E Ha. induction UNITS_SI as [|x l IH]; [contradiction|].
    simpl in E. destruct (try_si_unit unit x) eqn:Ex; [discriminate|].
    destruct Ha as [->|Ha]; auto.
Qed.

Lemma letter_allowed (c : ascii) : is_letter c = true -> is_allowed c = true.
Proof. unfold is_allowed. now intros ->. Qed.

Lemma letter_not_bracket (c : ascii) :
  is_letter c = true -> is_char "(" c = false /\ is_char ")" c = false.
Proof. destruct c as [[] [] [] [] [] [] [] []]; try discriminate; now split. Qed.

Lemma find_char_letters (s : string) :
  all_chars is_letter s = true ->
  find_char (fun c => negb (is_allowed c)) s = None.
Proof.
  induction s as [|c s IH]; simpl; [reflexivity|].
  intros [Hc Hs]%andb_prop. now rewrite (letter_allowed _ Hc), IH.
Qed.

Lemma count_bracket_letters (s : string) :
  all_chars is_letter s = true ->
  count_char "(" s = 0 /\ count_char ")" s = 0.
Proof.
  induction s as [|c s IH]; cbn [count_char all_chars]; [now split|].
  intros [Hc Hs]%andb_prop. destruct (letter_not_bracket _ Hc) as [-> ->].
  exact (IH Hs).
Qed.

Lemma snoc_append (run : string) (c : ascii) (s : string) :
  snoc run c +:+ s = run +:+ String c s.
Proof. unfold snoc. now rewrite append_assoc. Qed.

Lemma letter_runs_from_letters (run s : string) :
  all_chars is_letter s = true ->
  letter_runs_from run s = flush (run +:+ s) [].
Proof.
  revert run. induction s as [|c s IH]; intros run; simpl.
  - now rewrite append_empty_r.
  - intros [-> Hs]%andb_prop. now rewrite (IH _ Hs), snoc_append.
Qed.

(** A token of letters is its own only run. *)
Lemma letter_runs_token (unit : string) :
  all_chars is_letter unit = true -> unit <> "" -> letter_runs unit = [unit].
Proof.
  intros Hl Hne. unfold letter_runs. rewrite (letter_runs_from_letters _ _ Hl).
  simpl. destruct unit; [contradiction | reflexivity].
Qed.

Lemma all_chars_snoc (p : ascii -> bool) (s : string) (c : ascii) :
  all_chars p s = true -> p c = true -> all_chars p (snoc s c) = true.
Proof.
  intros Hs Hc. induction s as [|a s IH]; simpl in *.
  - now rewrite Hc.
  - apply andb_prop in Hs as [-> Hs]. now apply IH.
Qed.

(** Every run that [re.finditer(r"[a-zA-Z]+", s)] yields is made of
    letters: the lookups of the program are all on such tokens. *)
Lemma letter_runs_letters (s tok : string) :
  In tok (letter_runs s) -> all_chars is_letter tok = true.
Proof.
  unfold letter_runs.
  assert (H : forall run, all_chars is_letter run = true ->
              In tok (letter_runs_from run s) -> all_chars is_letter tok = true).
  { induction s as [|c s IH]; intros run Hrun; simpl.
    - unfold flush. destruct (is_empty run); [contradiction|].
      now intros [<-|[]].
    - destruct (is_letter c) eqn:Ec.
      + apply IH. now apply all_chars_snoc.
      + unfold flush. destruct (is_empty run).
        * now apply IH.
        * intros [<-|Hin]; [exact Hrun | now apply (IH "")]. }
  now apply H.
Qed.

Lemma ensure_si_unit_token (unit : string) :
  all_chars is_letter unit = true -> unit <> "" -> _get_si_unit unit = None ->
  _ensure_si_unit unit = Raise (NameError_not_a_valid_unit unit unit).
Proof.
  intros Hl Hne Hn. unfold _ensure_si_unit.
  rewrite (find_char_letters _ Hl).
  destruct (count_bracket_letters _ Hl) as [-> ->]. simpl.
  rewrite (letter_runs_token _ Hl Hne). simpl. now rewrite Hn.
Qed.

(** C3: for a token of letters, and for every order in which the set of
    base symbols is walked, the lookup returns the token itself with
    multiplier 1.0 when it is a base symbol; else the base symbol that
    ends it with the scale of the prefix before it, when that prefix is
    recognized; else the entry of the non-SI table, and nothing when the
    table has none, in which case validation raises the unknown-unit
    error. *)
Theorem registry_resolution_order (order : list string) (unit : string) :
  Permutation order UNITS_SI ->
  all_chars is_letter unit = true ->
  (In unit UNITS_SI -> _get_si_unit_in order unit = Some (unit, 1%float)) /\
  (~ In unit UNITS_SI ->
   forall unit_si prefix multiplier,
     In unit_si UNITS_SI -> unit = prefix +:+ unit_si ->
     table_get prefix PREFIX_SI = Some multiplier ->
     _get_si_unit_in order unit = Some (unit_si, multiplier)) /\
  (~ In unit UNITS_SI ->
   (forall unit_si prefix,
      In unit_si UNITS_SI -> unit = prefix +:+ unit_si ->
      table_get prefix PREFIX_SI = None) ->
   _get_si_unit_in order unit = table_get unit NON_SI_MAP) /\
  (_get_si_unit_in order unit = None -> unit <> "" ->
   _ensure_si_unit unit = Raise (NameError_not_a_valid_unit unit unit)).
Proof.
  intros Hp Hl. rewrite (get_si_unit_order _ _ Hp Hl).
  assert (Hu : forall x y bx by_, In x UNITS_SI -> In y UNITS_SI ->
               try_si_unit unit x = Some bx -> try_si_unit unit y = Some by_ -> x = y).
  { intros x y bx by_ Hx Hy. now apply try_si_unit_unique. }
  repeat split.
  - intros Hin. unfold _get_si_unit, _get_si_unit_in.
    rewrite (first_some_unique _ UNITS_SI unit (unit, 1%float)); auto.
    rewrite (try_si_unit_letters _ _ Hl).
    pose proof (strip_suffix_complete unit "") as E. cbn [String.append] in E.
    now rewrite E.
  - intros _ unit_si prefix multiplier Hin -> Hk.
    unfold _get_si_unit, _get_si_unit_in.
    rewrite (first_some_unique _ UNITS_SI unit_si (unit_si, multiplier)); auto.
    rewrite (try_si_unit_letters _ _ Hl), strip_suffix_complete.
    destruct prefix; [discriminate | now rewrite Hk].
  - intros Hnot Hnone. unfold _get_si_unit, _get_si_unit_in.
    rewrite first_some_none; [reflexivity|].
    intros a Ha. rewrite (try_si_unit_letters _ _ Hl).
    destruct (strip_suffix a unit) as [q|] eqn:E; [|reflexivity].
    apply strip_suffix_sound in E. destruct q as [|c q].
    + simpl in E. subst a. contradiction.
    + now rewrite (Hnone a (String c q) Ha E).
  - intros Hn Hne. now apply ensure_si_unit_token.
Qed.

Lemma registry_resolution_order_witness :
  _get_si_unit_in (rev UNITS_SI) "km" = Some ("m", 1000%float).
Proof.
  assert (Hp : Permutation (rev UNITS_SI) UNITS_SI)
    by (symmetry; apply Permutation_rev).
  assert (Hl : all_chars is_letter "km" = true) by reflexivity.
  destruct (registry_resolution_order (rev UNITS_SI) "km" Hp Hl) as (_ & H & _).
  apply (H ltac:(vm_compute; intuition discriminate) "m" "k");
    [vm_compute; tauto | reflexivity | reflexivity].
Defined.

(** ** Validation *)

Lemma find_char_allowed (s : string) :
  all_chars is_allowed s = true ->
  find_char (fun c => negb (is_allowed c)) s = None.
Proof.
  induction s as [|c s IH]; simpl; [reflexivity|].
  intros [-> Hs]%andb_prop. simpl. now apply IH.
Qed.

Lemma find_char_not_allowed (s : string) :
  all_chars is_allowed s = false ->
  exists c, is_allowed c = false /\
            find_char (fun c => negb (is_allowed c)) s = Some c.
Proof.
  induction s as [|c s IH]; simpl; [discriminate|].
  destruct (is_allowed c) eqn:Ec; simpl.
  - exact IH.
  - intros _. now exists c.
Qed.

(** An error of the validation is the error of every function that
    starts with it. *)
Lemma ensure_error_propagates (unit : string) (e : exn) :
  _ensure_si_unit unit = Raise e ->
  _get_unit_exponents unit = Raise e /\
  (forall other, units_compatible unit other = Raise e) /\
  (forall other, _ensure_si_unit other = Ok () ->
                 units_compatible other unit = Raise e).
Proof.
  intros H. repeat split.
  - unfold _get_unit_exponents. now rewrite H.
  - intros other. unfold units_compatible. now rewrite H.
  - intros other Ho. unfold units_compatible. now rewrite Ho, H.
Qed.

(** C9, as the code has it: the three checks run in this order and the
    first that fails gives the error.  A string with a character outside
    the alphabet raises the invalid-character error; a string of allowed
    characters whose bracket counts differ raises the unbalanced-brackets
    error; a string of allowed characters with equal counts and a run of
    letters that the registry does not resolve raises the unknown-unit
    error for such a run.  The exponent resolution and the compatibility
    test raise the same error before anything else. *)
Theorem validation_rejects_in_order (unit : string) :
  (all_chars is_allowed unit = false ->
   exists c, is_allowed c = false /\
     _ensure_si_unit unit = Raise (NameError_invalid_character c unit)) /\
  (all_chars is_allowed unit = true ->
   count_char "(" unit <> count_char ")" unit ->
   _ensure_si_unit unit = Raise (NameError_unbalanced_brackets unit)) /\
  (all_chars is_allowed unit = true ->
   count_char "(" unit = count_char ")" unit ->
   (exists tok, In tok (letter_runs unit) /\ _get_si_unit tok = None) ->
   exists tok, In tok (letter_runs unit) /\ _get_si_unit tok = None /\
     _ensure_si_unit unit = Raise (NameError_not_a_valid_unit tok unit)) /\
  (forall e, _ensure_si_unit unit = Raise e ->
     is_NameError e = true /\
     _get_unit_exponents unit = Raise e /\
     forall other, units_compatible unit other = Raise e).
Proof.
  repeat split.
  - intros H. destruct (find_char_not_allowed _ H) as (c & Hc & Hf).
    exists c. split; [exact Hc|]. unfold _ensure_si_unit. now rewrite Hf.
  - intros Ha Hn. unfold _ensure_si_unit. rewrite (find_char_allowed _ Ha).
    apply Nat.eqb_neq in Hn. now rewrite Hn.
  - intros Ha Hc (tok & Hin & Hnone). unfold _ensure_si_unit.
    rewrite (find_char_allowed _ Ha). rewrite Hc, Nat.eqb_refl. simpl.
    destruct (List.find _ (letter_runs unit)) as [tok'|] eqn:E.
    + apply List.find_some in E. destruct E as [Hin' Hn'].
      exists tok'. repeat split; auto.
      now destruct (_get_si_unit tok').
    + apply (List.find_none _ _ E) in Hin. now rewrite Hnone in Hin.
  - unfold _ensure_si_unit in H.
    destruct (find_char _ unit); [now injection H as <-|].
    destruct (negb _); [now injection H as <-|].
    destruct (List.find _ _); [now injection H as <- | discriminate].
  - now apply ensure_error_propagates.
  - now apply ensure_error_propagates.
Qed.

Lemma validation_rejects_in_order_witness :
  (exists c, is_allowed c = false /\
     _ensure_si_unit "#" = Raise (NameError_invalid_character c "#")) /\
  _ensure_si_unit "m((" = Raise (NameError_unbalanced_brackets "m((") /\
  (exists tok, In tok (letter_runs "xyz") /\ _get_si_unit tok = None /\
     _ensure_si_unit "xyz" = Raise (NameError_not_a_valid_unit tok "xyz")).
Proof.
  split; [|split].
  - apply (validation_rejects_in_order "#"). reflexivity.
  - apply (validation_rejects_in_order "m(("); [reflexivity | simpl; lia].
  - apply (validation_rejects_in_order "xyz"); [reflexivity | reflexivity |].
    exists "xyz". split; [now left | reflexivity].
Defined.

(** C9 as stated does not hold: a string with different bracket counts,
    or with an unknown unit, gets the error of an earlier check when it
    fails one. *)
Lemma validation_first_failure_wins :
  count_char "(" "(#" <> count_char ")" "(#" /\
  _ensure_si_unit "(#" = Raise (NameError_invalid_character "#" "(#") /\
  In "xyz" (letter_runs "(xyz") /\ _get_si_unit "xyz" = None /\
  _ensure_si_unit "(xyz" = Raise (NameError_unbalanced_brackets "(xyz").
Proof.
  repeat split; try reflexivity.
  - simpl. lia.
  - now left.
Qed.

(** ** The conversion cache *)

Section CacheProperties.
Variable float_pow : float -> float -> result float.

Local Abbreviation compute := (compute_factor float_pow).
Local Abbreviation call := (unit_conversion_factor float_pow).

(** Every entry of the cache is the factor that the computation gives
    for its key. *)
Definition cache_sound (c : cache) : Prop :=
  forall s t v, c !! (s, t) = Some v -> compute s t = Ok v.

Lemma cache_sound_empty : cache_sound ∅.
Proof. intros s t v H. rewrite lookup_empty in H. discriminate. Qed.

(** On a sound cache a call returns what the computation gives, hit or
    miss, and leaves a sound cache. *)
Lemma call_on_sound_cache (c : cache) (s t : string) :
  cache_sound c ->
  fst (call s t c) = compute s t /\ cache_sound (snd (call s t c)).
Proof.
  intros Hc. unfold unit_conversion_factor.
  destruct (c !! (s, t)) as [factor|] eqn:E.
  - destruct (truthy factor).
    + split; [symmetry; now apply Hc | exact Hc].
    + destruct (compute s t); split; auto.
  - destruct (compute s t) as [f|e] eqn:Ec; split; auto.
    intros s' t' v. cbn [snd].
    destruct (decide ((s, t) = (s', t'))) as [[= <- <-]|Hne].
    + rewrite lookup_insert_eq. now intros [= <-].
    + rewrite lookup_insert_ne by exact Hne. apply Hc.
Qed.

Lemma reachable_sound (c : cache) : reachable float_pow c -> cache_sound c.
Proof.
  induction 1 as [|c s t _ IH]; [apply cache_sound_empty|].
  now apply call_on_sound_cache.
Qed.

(** The value of a call does not depend on the cache it finds. *)
Lemma call_reachable (c : cache) (s t : string) :
  reachable float_pow c -> fst (call s t c) = compute s t.
Proof. intros H. now apply call_on_sound_cache, reachable_sound. Qed.

(** A value that a call returns is the value that the cache holds for
    the pair afterwards. *)
Lemma call_stores (c : cache) (s t : string) (v : float) :
  cache_sound c -> fst (call s t c) = Ok v ->
  snd (call s t c) !! (s, t) = Some v.
Proof.
  intros Hc. unfold unit_conversion_factor.
  destruct (c !! (s, t)) as [factor|] eqn:E.
  - pose proof (Hc _ _ _ E) as Hf. destruct (truthy factor).
    + cbn [fst snd]. now intros [= <-].
    + rewrite Hf. cbn [fst snd]. now intros [= <-].
  - destruct (compute s t) as [f|e]; cbn [fst snd]; [|discriminate].
    intros [= <-]. apply lookup_insert_eq.
Qed.

(** The caches that calls can lead to from [c]. *)
Inductive later (c : cache) : cache -> Prop :=
| later_now : later c c
| later_call (c' : cache) (s t : string) :
    later c c' -> later c (snd (call s t c')).

Lemma later_reachable (c c' : cache) :
  reachable float_pow c -> later c c' -> reachable float_pow c'.
Proof. intros Hc. induction 1; [exact Hc | now constructor]. Qed.

End CacheProperties.

(** C5: in a cache the program can be in, a value that a call returns
    is the value that the cache then holds for the pair; and after any
    further calls, for whatever pairs of strings, a call with the same
    two strings returns the same result as before: later calls repeat
    the value, and calls for other pairs do not change it. *)
Theorem cache_is_memoization
    (float_pow : float -> float -> result float) (c c' : cache)
    (source_unit target_unit : string) :
  reachable float_pow c -> later float_pow c c' ->
  fst (unit_conversion_factor float_pow source_unit target_unit c') =
  fst (unit_conversion_factor float_pow source_unit target_unit c) /\
  (forall v,
     fst (unit_conversion_factor float_pow source_unit target_unit c) = Ok v ->
     snd (unit_conversion_factor float_pow source_unit target_unit c)
       !! (source_unit, target_unit) = Some v).
Proof.
  intros Hc Hl. split.
  - rewrite (call_reachable _ c' _ _ (later_reachable _ _ _ Hc Hl)).
    now rewrite (call_reachable _ c _ _ Hc).
  - intros v. apply call_stores. now apply reachable_sound.
Qed.

(** The cache after the calls for GHz to MHz and then for lb to g. *)
Definition example_cache_1 : cache :=
  snd (unit_conversion_factor pow_integral "GHz" "MHz" ∅).

Definition example_cache_2 : cache :=
  snd (unit_conversion_factor pow_integral "lb" "g" example_cache_1).

Lemma cache_is_memoization_witness :
  fst (unit_conversion_factor pow_integral "GHz" "MHz" example_cache_2) =
  fst (unit_conversion_factor pow_integral "GHz" "MHz" ∅) /\
  example_cache_1 !! ("GHz", "MHz") = Some 1000%float.
Proof.
  destruct (cache_is_memoization pow_integral ∅ example_cache_2 "GHz" "MHz")
    as [H1 H2].
  - constructor.
  - constructor. constructor. constructor.
  - split; [exact H1 | apply H2; reflexivity].
Defined.

(** ** Incompatible units *)

(** C8: ["m"] and ["s"] are not compatible, and the conversion between
    them raises the incompatible-units error, in every cache the program
    can be in and whatever the power function. *)
Theorem metre_second_incompatible
    (float_pow : float -> float -> result float) (c : cache) :
  reachable float_pow c ->
  units_compatible "m" "s" = Ok false /\
  unit_conversion_factor float_pow "m" "s" c =
    (Raise (NameError_units_incompatible "m" "s"), c).
Proof.
  intros Hc. split; [reflexivity|].
  assert (Hf : compute_factor float_pow "m" "s" =
               Raise (NameError_units_incompatible "m" "s")) by reflexivity.
  unfold unit_conversion_factor.
  destruct (c !! ("m", "s")) as [v|] eqn:E.
  - apply (reachable_sound _ _ Hc) in E. congruence.
  - now rewrite Hf.
Qed.

Lemma metre_second_incompatible_witness :
  units_compatible "m" "s" = Ok false /\
  unit_conversion_factor pow_integral "m" "s" example_cache_2 =
    (Raise (NameError_units_incompatible "m" "s"), example_cache_2).
Proof.
  apply (metre_second_incompatible pow_integral example_cache_2).
  constructor. constructor. constructor.
Defined.

(** ** Repeated symbols *)

(** C1 does not hold on the code.  In ["km*m"] both tokens resolve to
    the symbol [m]; the exponent dict of the substituted string ["m*m"]
    has the single entry [m: 1.0], not [m: 2], so that ["km*m"] passes
    for compatible with ["m"].  Operations on a repeated symbol multiply
    into the one entry: ["m^2*m^3"] gives [m: 6.0] and ["m/m"] gives
    [m: -1.0]. *)
Theorem repeated_symbol_exponents_not_added :
  noprefix "km*m" = Ok "m*m" /\
  _get_unit_exponents "m*m" = Ok [("m", 1%float)] /\
  units_compatible "km*m" "m" = Ok true /\
  _get_unit_exponents "m^2*m^3" = Ok [("m", 6%float)] /\
  _get_unit_exponents "m/m" = Ok [("m", (-1)%float)].
Proof. repeat split; vm_compute; reflexivity. Qed.

(** ** Malformed exponents *)

(** C4 does not hold on the code.  ["m^"] and ["m^/s"] pass the
    validation, and the exponent resolution then subscripts the [None]
    that [re.match] returned: the caller gets a [TypeError], not a
    [NameError] with a message.  When the [^] does not directly follow a
    letter, as in ["m ^"], nothing is raised at all. *)
Theorem malformed_exponent_not_reported :
  _ensure_si_unit "m^" = Ok () /\
  units_compatible "m^" "m" = Raise TypeError_not_subscriptable /\
  units_compatible "m^/s" "m/s" = Raise TypeError_not_subscriptable /\
  units_compatible "(m)^" "m" = Raise TypeError_not_subscriptable /\
  (forall float_pow,
     fst (unit_conversion_factor float_pow "m^" "m" ∅)
     = Raise TypeError_not_subscriptable) /\
  units_compatible "m ^" "m" = Ok true.
Proof. repeat split; vm_compute; reflexivity. Qed.

(** ** The keys of the exponent dict *)

Definition keys (d : dict) : list string := map fst d.

Lemma dict_get_In (k : string) (v : float) (d : dict) :
  dict_get k d = Some v -> In k (keys d).
Proof.
  induction d as [|[k' v'] d IH]; simpl; [discriminate|].
  destruct (String.eqb k k') eqn:E.
  - apply String.eqb_eq in E. now left.
  - intros H. right. now apply IH.
Qed.

Lemma dict_get_not_In (k : string) (d : dict) :
  dict_get k d = None -> ~ In k (keys d).
Proof.
  induction d as [|[k' v'] d IH]; simpl; [tauto|].
  destruct (String.eqb k k') eqn:E; [discriminate|].
  apply String.eqb_neq in E. intros H [Hk|Hk]; [congruence | now apply IH].
Qed.

Lemma dict_set_keys (k : string) (v : float) (d : dict) :
  keys (dict_set k v d) =
    match dict_get k d with Some _ => keys d | None => keys d ++ [k] end.
Proof.
  induction d as [|[k' v'] d IH]; simpl; [reflexivity|].
  destruct (String.eqb k k') eqn:E; simpl; [reflexivity|].
  rewrite IH. now destruct (dict_get k d).
Qed.

Lemma dict_set_NoDup (k : string) (v : float) (d : dict) :
  NoDup (keys d) -> NoDup (keys (dict_set k v d)).
Proof.
  intros Hd. rewrite dict_set_keys.
  destruct (dict_get k d) eqn:E; [exact Hd|].
  apply dict_get_not_In in E.
  apply NoDup_app. repeat split; auto.
  - intros x Hx [<-|[]]%list_elem_of_In. now apply E, list_elem_of_In.
  - apply NoDup_singleton.
Qed.

Lemma initial_exponents_NoDup (unit : string) :
  NoDup (keys (initial_exponents unit)).
Proof.
  unfold initial_exponents.
  assert (H : forall l d, NoDup (keys d) ->
              NoDup (keys (fold_left (fun d name => dict_set name 1%float d) l d))).
  { induction l as [|x l IH]; intros d Hd; simpl; [exact Hd|].
    apply IH. now apply dict_set_NoDup. }
  apply H. constructor.
Qed.

Lemma dict_imul_keys (k : string) (x : result float) (d d' : dict) :
  dict_imul k x d = Ok d' -> keys d' = keys d.
Proof.
  unfold dict_imul. destruct (dict_get k d) eqn:E; [|discriminate].
  destruct x as [y|]; [|discriminate]. simpl. intros [= <-].
  now rewrite dict_set_keys, E.
Qed.

Lemma imul_all_keys (names : list string) (x : float) (d d' : dict) :
  imul_all names x d = Ok d' -> keys d' = keys d.
Proof.
  revert d. induction names as [|n names IH]; intros d; simpl.
  - now intros [= <-].
  - destruct (dict_imul n (Ok x) d) as [d1|] eqn:E; [|discriminate]. simpl.
    intros H. rewrite (IH _ H). now apply dict_imul_keys in E.
Qed.

Lemma fold_bracket_keys (pre inner post _unit : string) (d d' : dict) :
  fold_bracket pre inner post d = Ok (_unit, d') -> keys d' = keys d.
Proof.
  unfold fold_bracket.
  destruct (match post with String "^" after => _ | _ => _ end)
    as [[e post']|]; [|discriminate]. simpl.
  destruct (match last_char pre with Some "/"%char => _ | _ => _ end)
    as [e' pre'].
  destruct (imul_all (letter_runs inner) e' d) as [d1|] eqn:E; [|discriminate].
  simpl. intros [= _ <-]. now apply imul_all_keys in E.
Qed.

Lemma remove_brackets_keys (_unit : string) (d : dict) (_unit' : string) (d' : dict) :
  remove_brackets _unit d = Ok (_unit', d') -> keys d' = keys d.
Proof.
  funelim (remove_brackets _unit d); intros Hr.
  - now injection Hr as _ <-.
  - rewrite (H _ _ Hr). exact (fold_bracket_keys _ _ _ _ _ _ Hf).
  - discriminate.
Qed.

Lemma handle_exponents_keys (run _unit : string) (d d' : dict) :
  handle_exponents run _unit d = Ok d' -> keys d' = keys d.
Proof.
  revert run d. induction _unit as [|c s IH]; intros run d; simpl.
  - now intros [= <-].
  - destruct (is_letter c); [apply IH|].
    destruct (is_char c "^" && negb (is_empty run)); [|apply IH].
    destruct (match_exponent s) as [[m rest]|]; [|discriminate].
    destruct (dict_imul run (exponent_value m) d) as [d1|] eqn:E; [|discriminate].
    simpl. intros H. rewrite (IH _ _ H). now apply dict_imul_keys in E.
Qed.

Lemma negate_keys (run : option string) (d d' : dict) :
  negate run d = Ok d' -> keys d' = keys d.
Proof.
  destruct run as [[|c r]|]; simpl; try now intros [= <-].
  apply dict_imul_keys.
Qed.

Lemma handle_divisions_keys (run : option string) (_unit : string) (d d' : dict) :
  handle_divisions run _unit d = Ok d' -> keys d' = keys d.
Proof.
  revert run d. induction _unit as [|c s IH]; intros run d; cbn [handle_divisions].
  - apply negate_keys.
  - destruct run as [r|]; [|apply IH].
    destruct (is_letter c); [apply IH|].
    destruct (negate (Some r) d) as [d1|] eqn:E; [|discriminate].
    cbn [bind]. intros H. rewrite (IH _ _ H). now apply negate_keys in E.
Qed.

(** The dict that the resolution returns has the keys of the initial
    dict: one entry for each distinct run of letters. *)
Lemma get_unit_exponents_keys (unit : string) (d : dict) :
  _get_unit_exponents unit = Ok d -> keys d = keys (initial_exponents unit).
Proof.
  unfold _get_unit_exponents.
  destruct (_ensure_si_unit unit); [|discriminate]. simpl.
  destruct (remove_brackets _ _) as [[u d1]|] eqn:E1; [|discriminate]. simpl.
  destruct (handle_exponents "" u d1) as [d2|] eqn:E2; [|discriminate]. simpl.
  intros E3. apply handle_divisions_keys in E3. apply handle_exponents_keys in E2.
  apply remove_brackets_keys in E1. congruence.
Qed.

Lemma dict_get_NoDup (k : string) (v : float) (d : dict) :
  NoDup (keys d) -> In (k, v) d -> dict_get k d = Some v.
Proof.
  induction d as [|[k' v'] d IH]; simpl; [tauto|].
  intros Hn [[= -> ->]|Hin].
  - now rewrite String.eqb_refl.
  - apply NoDup_cons in Hn as [Hk' Hn].
    destruct (String.eqb k k') eqn:E; [|now apply IH].
    apply String.eqb_eq in E. subst k'. exfalso. apply Hk'.
    apply list_elem_of_In. change k with (fst (k, v)). now apply in_map.
Qed.

(** ** Reflexivity of the compatibility test *)

(** The exponent dict on base symbols that [units_compatible] builds for
    one of its arguments. *)
Definition base_exponents (unit : string) : result dict :=
  let* unit_noprefix := noprefix unit in
  _get_unit_exponents unit_noprefix.

Lemma existsb_false {A : Type} (f : A -> bool) (l : list A) :
  (forall x, In x l -> f x = false) -> existsb f l = false.
Proof.
  intros H. destruct (existsb f l) eqn:E; [|reflexivity].
  apply existsb_exists in E as (x & Hx & Hf). now rewrite (H x Hx) in Hf.
Qed.

(** On a dict compared with itself, an item differs exactly when its
    exponent is NaN. *)
Lemma differs_self_nan (d : dict) :
  NoDup (keys d) ->
  existsb (differs d) d = existsb (fun item => is_nan (snd item)) d.
Proof.
  intros Hn.
  assert (H : forall l, (forall x, In x l -> In x d) ->
              existsb (differs d) l = existsb (fun item => is_nan (snd item)) l).
  { induction l as [|[name e] l IH]; intros Hl; [reflexivity|].
    cbn [existsb]. rewrite IH by (intros x Hx; apply Hl; now right).
    f_equal. unfold differs. cbn [fst snd].
    now rewrite (dict_get_NoDup name e d Hn (Hl _ (or_introl eq_refl))). }
  now apply H.
Qed.

(** The test of a valid string against itself, when the exponents
    resolve: true exactly when no exponent is NaN. *)
Lemma units_compatible_self (unit : string) (exponents : dict) :
  _ensure_si_unit unit = Ok () ->
  base_exponents unit = Ok exponents ->
  units_compatible unit unit =
    Ok (negb (existsb (fun item => is_nan (snd item)) exponents)).
Proof.
  intros Hv He. unfold units_compatible, base_exponents in *.
  rewrite Hv. cbn [bind].
  destruct (noprefix unit) as [u|]; [|discriminate]. cbn [bind] in *.
  rewrite He. cbn [bind]. rewrite Nat.eqb_refl. cbn [negb].
  rewrite differs_self_nan; [reflexivity|].
  rewrite (get_unit_exponents_keys _ _ He). apply initial_exponents_NoDup.
Qed.

(** C7, as the code has it: a valid unit string is compatible with
    itself when its exponent resolution returns a dict, and no exponent
    in it is NaN. *)
Theorem units_compatible_reflexive (unit : string) (exponents : dict) :
  _ensure_si_unit unit = Ok () ->
  base_exponents unit = Ok exponents ->
  (forall name e, In (name, e) exponents -> is_nan e = false) ->
  units_compatible unit unit = Ok true.
Proof.
  intros Hv He Hnan. rewrite (units_compatible_self _ _ Hv He).
  rewrite existsb_false; [reflexivity|].
  intros [name e] Hin. exact (Hnan _ _ Hin).
Qed.

Lemma units_compatible_reflexive_witness :
  units_compatible "km/h^2" "km/h^2" = Ok true.
Proof.
  apply (units_compatible_reflexive "km/h^2" [("m", 1%float); ("s", (-2)%float)]).
  - reflexivity.
  - reflexivity.
  - intros name e [[= <- <-]|[[= <- <-]|[]]]; reflexivity.
Defined.

Fixpoint repeat_char (n : nat) (c : ascii) : string :=
  match n with
  | 0 => ""
  | S n' => String c (repeat_char n' c)
  end.

(** A metre to the power of a fraction whose two numbers, of 400 digits
    each, are beyond the range of a float. *)
Definition unit_with_nan_exponent : string :=
  "m^" +:+ repeat_char 400 "9" +:+ "/" +:+ repeat_char 400 "9".

(** C7 as stated does not hold.  Both strings below pass the
    validation.  The first has an exponent that is NaN, as infinity
    divided by infinity, and NaN differs from itself: the test returns
    false.  The second has a [^] without exponent and the test raises a
    [TypeError]. *)
Lemma units_compatible_not_reflexive :
  _ensure_si_unit unit_with_nan_exponent = Ok () /\
  units_compatible unit_with_nan_exponent unit_with_nan_exponent = Ok false /\
  _ensure_si_unit "m^" = Ok () /\
  units_compatible "m^" "m^" = Raise TypeError_not_subscriptable.
Proof. repeat split; vm_compute; reflexivity. Qed.

(** ** Binary64 facts *)

(** A finite float other than the zeros. *)
Definition finite_nonzero (x : float) : bool :=
  match Prim2SF x with S754_finite _ _ _ => true | _ => false end.

(** NaN, a zero, or a float above zero. *)
Definition not_negative (x : float) : bool :=
  is_nan x || (0 <=? x)%float.

Definition SF_not_negative (f : spec_float) : bool :=
  match f with
  | S754_nan | S754_zero _ => true
  | S754_infinity s | S754_finite s _ _ => negb s
  end.

Definition SF_is_zero (f : spec_float) : bool :=
  match f with S754_zero _ => true | _ => false end.

Lemma SFdiv_self (s : bool) (m : positive) (e : Z) :
  SFdiv prec emax (S754_finite s m e) (S754_finite s m e) = Prim2SF 1.
Proof.
  unfold SFdiv, SFdiv_core_binary.
  rewrite !Z.sub_diag.
  change (Z.min (fexp prec emax 0) 0) with (-53)%Z.
  change (0 - -53)%Z with 53%Z. cbv beta iota zeta.
  rewrite Z.shiftl_mul_pow2 by lia.
  assert (Hq : (Z.pos m * 2 ^ 53 / Z.pos m = 2 ^ 53)%Z)
    by (rewrite Z.mul_comm; apply Z.div_mul; lia).
  assert (Hr : ((Z.pos m * 2 ^ 53) mod Z.pos m = 0)%Z)
    by (rewrite Z.mul_comm; apply Z.mod_mul; lia).
  unfold Z.div in Hq. unfold Z.modulo in Hr.
  destruct (Z.div_eucl (Z.pos m * 2 ^ 53) (Z.pos m)) as [q r].
  subst q r.
  assert (Hl : new_location (Z.pos m) 0 = loc_Exact).
  { unfold new_location, new_location_even, new_location_odd.
    now destruct (Z.even (Z.pos m)). }
  rewrite Hl. rewrite xorb_nilpotent. vm_compute. reflexivity.
Qed.

(** A finite float other than zero divided by itself is exactly one. *)
Lemma div_self (x : float) : finite_nonzero x = true -> (x / x)%float = 1%float.
Proof.
  unfold finite_nonzero. intros H. apply Prim2SF_inj. rewrite div_spec.
  destruct (Prim2SF x) as [| | |s m e]; try discriminate.
  apply SFdiv_self.
Qed.

Lemma finite_nonzero_eqb_zero (x : float) :
  finite_nonzero x = true -> (x =? 0)%float = false.
Proof.
  unfold finite_nonzero. rewrite FloatAxioms.eqb_spec.
  destruct (Prim2SF x) as [| | |[] m e]; try discriminate; reflexivity.
Qed.

Lemma SFcompare_finite_refl (s : bool) (m : positive) (e : Z) :
  SFcompare (S754_finite s m e) (S754_finite s m e) = Some Eq.
Proof.
  unfold SFcompare. rewrite Z.compare_refl.
  assert (H : Pos.compare_cont Eq m m = Eq) by apply Pos.compare_refl.
  rewrite H. now destruct s.
Qed.

Lemma not_negative_spec (x : float) :
  not_negative x = SF_not_negative (Prim2SF x).
Proof.
  unfold not_negative, is_nan. rewrite FloatAxioms.eqb_spec, FloatAxioms.leb_spec.
  change (Prim2SF 0) with (S754_zero false).
  destruct (Prim2SF x) as [[]|[]| |s m e]; try reflexivity.
  unfold SFeqb. rewrite SFcompare_finite_refl. now destruct s.
Qed.

Lemma eqb_zero_spec (x : float) :
  (x =? 0)%float = SF_is_zero (Prim2SF x).
Proof.
  rewrite FloatAxioms.eqb_spec. change (Prim2SF 0) with (S754_zero false).
  now destruct (Prim2SF x) as [[]|[]| |[] m e].
Qed.

Lemma positive_spec (x : float) :
  (0 <? x)%float = true ->
  SF_not_negative (Prim2SF x) = true /\ SF_is_zero (Prim2SF x) = false.
Proof.
  rewrite FloatAxioms.ltb_spec. change (Prim2SF 0) with (S754_zero false).
  now destruct (Prim2SF x) as [[]|[]| |[] m e].
Qed.

(** Rounding keeps the sign it is given. *)
Lemma binary_round_aux_sign (mx ex : Z) (lx : location) :
  SF_not_negative (binary_round_aux prec emax false mx ex lx) = true.
Proof.
  unfold binary_round_aux.
  destruct (shr_fexp prec emax mx ex lx) as [mrs' e'].
  destruct (shr_fexp prec emax _ e' loc_Exact) as [mrs'' e''].
  destruct (shr_m mrs''); try reflexivity.
  now destruct (e'' <=? emax - prec)%Z.
Qed.

Lemma SFmul_not_negative (x y : spec_float) :
  SF_not_negative x = true -> SF_not_negative y = true ->
  SF_not_negative (SFmul prec emax x y) = true.
Proof.
  destruct x as [sx|[]| |[] mx ex], y as [sy|[]| |[] my ey];
    try discriminate; try reflexivity; intros _ _; cbn [SFmul xorb].
  apply binary_round_aux_sign.
Qed.

Lemma SFdiv_not_negative (x y : spec_float) :
  SF_not_negative x = true -> SF_not_negative y = true ->
  SF_is_zero y = false ->
  SF_not_negative (SFdiv prec emax x y) = true.
Proof.
  destruct x as [sx|[]| |[] mx ex], y as [sy|[]| |[] my ey];
    try discriminate; try reflexivity; intros _ _ _; cbn [SFdiv xorb].
  destruct (SFdiv_core_binary prec emax (Z.pos mx) ex (Z.pos my) ey) as [[mz ez] lz].
  apply binary_round_aux_sign.
Qed.

Lemma mul_not_negative (x y : float) :
  not_negative x = true -> not_negative y = true ->
  not_negative (x * y) = true.
Proof.
  rewrite !not_negative_spec, mul_spec. apply SFmul_not_negative.
Qed.

Lemma float_div_not_negative (x y r : float) :
  not_negative x = true -> not_negative y = true ->
  float_div x y = Ok r -> not_negative r = true.
Proof.
  unfold float_div. rewrite !not_negative_spec.
  destruct (y =? 0)%float eqn:E; [discriminate|]. intros Hx Hy [= <-].
  rewrite div_spec. rewrite eqb_zero_spec in E.
  now apply SFdiv_not_negative.
Qed.

(** ** The same unit on both sides *)

(** C6, as the code has it: when a unit string is compatible with
    itself, its exponents resolve, and the product of its powers is a
    finite number other than zero, the factor from the string to itself
    is exactly 1.0, in every cache the program can be in. *)
Theorem same_unit_factor_one
    (float_pow : float -> float -> result float) (c : cache)
    (unit : string) (exponents : dict) (multiplier : float) :
  reachable float_pow c ->
  units_compatible unit unit = Ok true ->
  _get_unit_exponents unit = Ok exponents ->
  multiply_units float_pow exponents 1 = Ok multiplier ->
  finite_nonzero multiplier = true ->
  fst (unit_conversion_factor float_pow unit unit c) = Ok 1%float.
Proof.
  intros Hc Hu He Hm Hf. rewrite (call_reachable _ _ _ _ Hc).
  unfold compute_factor. rewrite Hu. cbn [bind negb]. rewrite He. cbn [bind].
  rewrite Hm. cbn [bind]. unfold float_div.
  now rewrite (finite_nonzero_eqb_zero _ Hf), (div_self _ Hf).
Qed.

Lemma same_unit_factor_one_witness :
  fst (unit_conversion_factor pow_integral "km/h^2" "km/h^2" ∅) = Ok 1%float.
Proof.
  apply (same_unit_factor_one pow_integral ∅ "km/h^2"
           [("km", 1%float); ("h", (-2)%float)]
           (1 * 1000 * rounded_power 3600 (-2))%float).
  - constructor.
  - reflexivity.
  - reflexivity.
  - reflexivity.
  - reflexivity.
Defined.

(** C6 as stated does not hold.  The strings below pass the validation.
    With twentieth powers of peta-units the product of the powers is
    infinite on both sides and the factor is NaN; with twentieth powers
    of femto-units the product is zero on both sides and the division
    raises; with a [^] without exponent the call raises a [TypeError]
    whatever the power function. *)
Lemma same_unit_factor_not_one :
  _ensure_si_unit "Pm^20*Ps^20" = Ok () /\
  fst (unit_conversion_factor pow_integral "Pm^20*Ps^20" "Pm^20*Ps^20" ∅)
    = Ok nan /\
  _ensure_si_unit "fm^20*fs^20" = Ok () /\
  fst (unit_conversion_factor pow_integral "fm^20*fs^20" "fm^20*fs^20" ∅)
    = Raise ZeroDivisionError /\
  _ensure_si_unit "m^" = Ok () /\
  (forall float_pow,
     fst (unit_conversion_factor float_pow "m^" "m^" ∅)
     = Raise TypeError_not_subscriptable).
Proof. repeat split; vm_compute; reflexivity. Qed.

(** ** The worked example *)

(** C2: from ["m/s^2"] to ["km/h^2"].  The slash negates the exponent
    of the whole token [s^2] and [h^2]; ["km"] resolves through the
    prefix table and ["h"] through the non-SI table; the factor is the
    product of the powers of the source over that of the target.  With
    a power function that is correctly rounded on the four powers
    taken, the factor is exactly 12960.0. *)
Theorem metre_per_second_squared_to_kilometre_per_hour_squared
    (float_pow : float -> float -> result float) (c : cache) :
  reachable float_pow c ->
  correctly_rounded_at float_pow 1 1 ->
  correctly_rounded_at float_pow 1 (-2) ->
  correctly_rounded_at float_pow 1000 1 ->
  correctly_rounded_at float_pow 3600 (-2) ->
  _get_unit_exponents "m/s^2" = Ok [("m", 1); ("s", -2)]%float /\
  _get_unit_exponents "km/h^2" = Ok [("km", 1); ("h", -2)]%float /\
  _get_si_unit "km" = Some ("m", 1000%float) /\
  _get_si_unit "h" = Some ("s", 3600%float) /\
  compute_factor float_pow "m/s^2" "km/h^2" =
    float_div (1 * rounded_power 1 1 * rounded_power 1 (-2))
              (1 * rounded_power 1000 1 * rounded_power 3600 (-2)) /\
  fst (unit_conversion_factor float_pow "m/s^2" "km/h^2" c) = Ok 12960%float /\
  (12960 = (1 / 1000) / ((1 / 3600) * (1 / 3600)))%float.
Proof.
  unfold correctly_rounded_at.
  change (float_of_Z 1) with 1%float. change (float_of_Z (-2)) with (-2)%float.
  intros Hc H1 H2 H3 H4.
  assert (Hf : compute_factor float_pow "m/s^2" "km/h^2" =
    float_div (1 * rounded_power 1 1 * rounded_power 1 (-2))
              (1 * rounded_power 1000 1 * rounded_power 3600 (-2))).
  { unfold compute_factor.
    change (units_compatible "m/s^2" "km/h^2") with (Ok true).
    change (_get_unit_exponents "m/s^2") with (Ok [("m", 1); ("s", -2)]%float).
    change (_get_unit_exponents "km/h^2") with (Ok [("km", 1); ("h", -2)]%float).
    cbn [bind negb multiply_units].
    change (_get_si_unit "m") with (Some ("m", 1%float)).
    change (_get_si_unit "s") with (Some ("s", 1%float)).
    change (_get_si_unit "km") with (Some ("m", 1000%float)).
    change (_get_si_unit "h") with (Some ("s", 3600%float)).
    cbn iota beta. rewrite H1. cbn [bind]. rewrite H2. cbn [bind].
    rewrite H3. cbn [bind]. rewrite H4. reflexivity. }
  repeat split; try reflexivity; [exact Hf|].
  rewrite (call_reachable _ _ _ _ Hc), Hf. reflexivity.
Qed.

Lemma metre_per_second_squared_to_kilometre_per_hour_squared_witness :
  fst (unit_conversion_factor pow_integral "m/s^2" "km/h^2" example_cache_2)
  = Ok 12960%float.
Proof.
  apply (metre_per_second_squared_to_kilometre_per_hour_squared
           pow_integral example_cache_2);
    [constructor; constructor; constructor | reflexivity ..].
Defined.

(** ** The sign of the factor *)

Lemma positive_tables :
  forallb (fun entry => (0 <? snd entry)%float) PREFIX_SI = true /\
  forallb (fun entry => (0 <? snd (snd entry))%float) NON_SI_MAP = true.
Proof. split; vm_compute; reflexivity. Qed.

Lemma first_some_In {A B : Type} (f : A -> option B) (l : list A) (b : B) :
  first_some f l = Some b -> exists a, In a l /\ f a = Some b.
Proof.
  induction l as [|x l IH]; simpl; [discriminate|].
  destruct (f x) as [bx|] eqn:E.
  - intros [= <-]. exists x. split; [now left | exact E].
  - intros H. destruct (IH H) as (a & Ha & Hb). exists a. split; [now right | exact Hb].
Qed.

(** Every multiplier of the registry is above zero. *)
Lemma get_si_unit_positive (unit unit_si : string) (multiplier : float) :
  _get_si_unit unit = Some (unit_si, multiplier) -> (0 <? multiplier)%float = true.
Proof.
  unfold _get_si_unit, _get_si_unit_in. destruct positive_tables as [Hp Hn].
  rewrite forallb_forall in Hp, Hn.
  destruct (first_some (try_si_unit unit) UNITS_SI) as [r|] eqn:E.
  - intros [= ->]. apply first_some_In in E as (a & _ & Ha).
    unfold try_si_unit in Ha. destruct (search_at_end a unit) as [[|n]|]; try discriminate.
    + now injection Ha as _ <-.
    + destruct (table_get _ PREFIX_SI) as [k|] eqn:Ek; [|discriminate].
      injection Ha as _ <-. apply table_get_In in Ek. exact (Hp _ Ek).
  - intros H. apply table_get_In in H. exact (Hn _ H).
Qed.

Section Sign.
Variable float_pow : float -> float -> result float.

(** The power of a base above zero is not below zero. *)
Hypothesis float_pow_not_negative :
  forall x y r, (0 <? x)%float = true -> float_pow x y = Ok r ->
                not_negative r = true.

Lemma multiply_units_not_negative (exponents : dict) (multiplier r : float) :
  not_negative multiplier = true ->
  multiply_units float_pow exponents multiplier = Ok r ->
  not_negative r = true.
Proof.
  revert multiplier. induction exponents as [|[unit e] rest IH];
    intros multiplier Hm; cbn [multiply_units].
  - now intros [= <-].
  - destruct (_get_si_unit unit) as [[b m]|] eqn:Eu; [|discriminate].
    destruct (float_pow m e) as [p|] eqn:Ep; [|discriminate]. cbn [bind].
    apply IH. apply mul_not_negative; [exact Hm|].
    apply (float_pow_not_negative m e p); [|exact Ep].
    exact (get_si_unit_positive _ _ _ Eu).
Qed.

Lemma compute_factor_not_negative (source_unit target_unit : string) (v : float) :
  compute_factor float_pow source_unit target_unit = Ok v ->
  not_negative v = true.
Proof.
  unfold compute_factor.
  destruct (units_compatible source_unit target_unit) as [[]|]; try discriminate.
  cbn [bind negb].
  destruct (_get_unit_exponents source_unit) as [se|]; [|discriminate].
  destruct (_get_unit_exponents target_unit) as [te|]; [|discriminate].
  cbn [bind].
  destruct (multiply_units float_pow se 1) as [ms|] eqn:Es; [|discriminate].
  destruct (multiply_units float_pow te 1) as [mt|] eqn:Et; [|discriminate].
  cbn [bind]. apply float_div_not_negative.
  - apply (multiply_units_not_negative se 1%float ms); [reflexivity | exact Es].
  - apply (multiply_units_not_negative te 1%float mt); [reflexivity | exact Et].
Qed.

End Sign.

(** C10, as the code has it: when the power of a base above zero is
    never below zero, no value that [unit_conversion_factor] returns, and
    no value in its cache, is below zero: each is above zero, a zero, or
    NaN. *)
Theorem factor_not_negative
    (float_pow : float -> float -> result float) (c : cache) :
  (forall x y r, (0 <? x)%float = true -> float_pow x y = Ok r ->
                 not_negative r = true) ->
  reachable float_pow c ->
  (forall source_unit target_unit v,
     fst (unit_conversion_factor float_pow source_unit target_unit c) = Ok v ->
     not_negative v = true) /\
  (forall key v, c !! key = Some v -> not_negative v = true).
Proof.
  intros Hpow Hc. split.
  - intros s t v. rewrite (call_reachable _ _ _ _ Hc).
    now apply compute_factor_not_negative.
  - intros [s t] v Hk. apply (reachable_sound _ _ Hc) in Hk.
    now apply compute_factor_not_negative in Hk.
Qed.

(** The reference power is never below zero. *)
Lemma binary_round_sign (m : positive) (e : Z) :
  SF_not_negative (binary_round prec emax false m e) = true.
Proof.
  unfold binary_round.
  destruct (shl_align m e _) as [mz ez]. apply binary_round_aux_sign.
Qed.

Lemma binary_normalize_sign (m e : Z) :
  (0 <= m)%Z -> SF_not_negative (binary_normalize prec emax m e false) = true.
Proof.
  destruct m as [|p|p]; intros H; [reflexivity | apply binary_round_sign | lia].
Qed.

Lemma SFldexp_sign (f : spec_float) (e : Z) :
  SF_not_negative f = true -> SF_not_negative (SFldexp prec emax f e) = true.
Proof.
  destruct f as [s|s| |[] m e']; try (intros H; exact H); try discriminate.
  intros _. apply binary_round_sign.
Qed.

Lemma SF2Prim_not_negative (f : spec_float) :
  SF_not_negative f = true -> not_negative (SF2Prim f) = true.
Proof.
  destruct f as [[]|[]| |[] m e]; try discriminate; try reflexivity.
  intros _. cbn [SF2Prim]. rewrite not_negative_spec, Z_ldexp_spec.
  apply SFldexp_sign. rewrite of_uint63_spec.
  apply binary_normalize_sign. apply Uint63.to_Z_bounded.
Qed.

Lemma rounded_power_not_negative (x : float) (n : Z) :
  not_negative (rounded_power x n) = true.
Proof.
  unfold rounded_power.
  destruct (Prim2SF x) as [s|s| |[] m e]; try reflexivity.
  destruct (0 <=? n)%Z; apply SF2Prim_not_negative.
  - apply binary_normalize_sign. apply Z.pow_nonneg. lia.
  - now apply SFdiv_not_negative.
Qed.

Lemma pow_integral_not_negative (x y r : float) :
  (0 <? x)%float = true -> pow_integral x y = Ok r -> not_negative r = true.
Proof.
  intros _. unfold pow_integral. destruct (integral y) as [n|].
  - destruct (is_infinity _); [discriminate|]. intros [= <-].
    apply rounded_power_not_negative.
  - now intros [= <-].
Qed.

Lemma factor_not_negative_witness :
  exists v,
    fst (unit_conversion_factor pow_integral "m/s^2" "km/h^2" example_cache_2)
      = Ok v /\
    not_negative v = true.
Proof.
  exists 12960%float. split; [reflexivity|].
  destruct (factor_not_negative pow_integral example_cache_2
              pow_integral_not_negative
              ltac:(constructor; constructor; constructor)) as [H _].
  apply (H "m/s^2" "km/h^2"). reflexivity.
Defined.

(** C10 as stated does not hold.  From twentieth powers of femto-units
    to those of the base units, each power is about 1e-300 and their
    product is below the smallest float: the factor is 0.0, and 0.0 is
    what the cache holds.  With peta-units on both sides the factor is
    NaN. *)
Lemma factor_can_be_zero :
  units_compatible "fm^20*fs^20" "m^20*s^20" = Ok true /\
  pow_integral 1e-15 20 = Ok 1.0000000000000015e-300%float /\
  fst (unit_conversion_factor pow_integral "fm^20*fs^20" "m^20*s^20" ∅)
    = Ok 0%float /\
  snd (unit_conversion_factor pow_integral "fm^20*fs^20" "m^20*s^20" ∅)
    !! ("fm^20*fs^20", "m^20*s^20") = Some 0%float /\
  fst (unit_conversion_factor pow_integral "Pm^20*Ps^20" "Pm^20*Ps^20" ∅)
    = Ok nan.
Proof. repeat split; vm_compute; reflexivity. Qed.

(** * Further properties of the code *)

(** ** What the validation accepts *)

Lemma find_char_none_all (p : ascii -> bool) (s : string) :
  find_char (fun c => negb (p c)) s = None -> all_chars p s = true.
Proof.
  induction s as [|c s IH]; simpl; [reflexivity|].
  destruct (p c); simpl; [exact IH | discriminate].
Qed.

(** X1: [_ensure_si_unit] accepts a string exactly when all its
    characters are in the alphabet, it has as many opening as closing
    brackets, and every run of letters resolves in the registry.  The
    brackets are counted only: their order is not looked at. *)
Theorem validation_accepts_iff (unit : string) :
  _ensure_si_unit unit = Ok () <->
  all_chars is_allowed unit = true /\
  count_char "(" unit = count_char ")" unit /\
  (forall tok, In tok (letter_runs unit) -> _get_si_unit tok <> None).
Proof.
  unfold _ensure_si_unit. split.
  - destruct (find_char _ unit) eqn:Ef; [discriminate|].
    destruct (count_char "(" unit =? count_char ")" unit) eqn:Ec; [|discriminate].
    cbn [negb]. destruct (List.find _ (letter_runs unit)) eqn:El; [discriminate|].
    intros _. repeat split.
    + now apply find_char_none_all.
    + now apply Nat.eqb_eq.
    + intros tok Hin Hn. apply (List.find_none _ _ El) in Hin.
      now rewrite Hn in Hin.
  - intros (Ha & Hc & Hr). rewrite (find_char_allowed _ Ha), Hc, Nat.eqb_refl.
    cbn [negb]. destruct (List.find _ (letter_runs unit)) as [tok|] eqn:El;
      [|reflexivity].
    apply List.find_some in El as [Hin Hn]. specialize (Hr tok Hin).
    now destruct (_get_si_unit tok).
Qed.

(** ** The tables and the lookup *)

(** X2: no entry of the tables is shadowed by another.  Every prefix
    put before every base symbol resolves to that symbol with the scale
    of that prefix, and every name of the non-SI table resolves to its
    own entry. *)
Theorem registry_entries_resolve :
  (forall prefix multiplier unit_si,
     table_get prefix PREFIX_SI = Some multiplier -> In unit_si UNITS_SI ->
     _get_si_unit (prefix +:+ unit_si) = Some (unit_si, multiplier)) /\
  (forall name entry,
     table_get name NON_SI_MAP = Some entry -> _get_si_unit name = Some entry).
Proof.
  split.
  - intros prefix multiplier unit_si Hp Hu. apply table_get_In in Hp.
    unfold PREFIX_SI in Hp. unfold UNITS_SI in Hu. cbn [In] in Hp, Hu.
    repeat (destruct Hp as [[= <- <-]|Hp]; [|]); try contradiction;
      repeat (destruct Hu as [<-|Hu]; [vm_compute; reflexivity|]);
      contradiction.
  - intros name entry Hn. apply table_get_In in Hn.
    unfold NON_SI_MAP in Hn. cbn [In] in Hn.
    repeat (destruct Hn as [[= <- <-]|Hn]; [vm_compute; reflexivity|]).
    contradiction.
Qed.

Lemma try_si_unit_symbol (unit a b : string) (m : float) :
  try_si_unit unit a = Some (b, m) ->
  b = a /\ (m = 1%float \/ exists p, In (p, m) PREFIX_SI).
Proof.
  unfold try_si_unit. destruct (search_at_end a unit) as [[|n]|]; try discriminate.
  - intros [= <- <-]. split; [reflexivity | now left].
  - destruct (table_get _ PREFIX_SI) as [k|] eqn:Ek; [|discriminate].
    intros [= <- <-]. split; [reflexivity|]. right.
    eexists. apply table_get_In. exact Ek.
Qed.

Lemma base_symbols_in_base_form (b : string) :
  In b UNITS_SI -> noprefix b = Ok b /\ _ensure_si_unit b = Ok ().
Proof.
  unfold UNITS_SI. cbn [In]. intros H.
  repeat (destruct H as [<-|H]; [split; vm_compute; reflexivity|]).
  contradiction.
Qed.

Lemma non_si_targets_in_base_form (name b : string) (m : float) :
  In (name, (b, m)) NON_SI_MAP ->
  noprefix b = Ok b /\ _ensure_si_unit b = Ok () /\ is_finite m = true.
Proof.
  unfold NON_SI_MAP. cbn [In]. intros H.
  repeat (destruct H as [[= <- <- <-]|H]; [repeat split; vm_compute; reflexivity|]).
  contradiction.
Qed.

Lemma prefixes_finite (p : string) (m : float) :
  In (p, m) PREFIX_SI -> is_finite m = true.
Proof.
  unfold PREFIX_SI. cbn [In]. intros H.
  repeat (destruct H as [[= <- <-]|H]; [vm_compute; reflexivity|]).
  contradiction.
Qed.

(** X3: whatever the lookup returns is ready for use: the multiplier is
    a finite number above zero, and the symbol is in base form, that is,
    it passes the validation and the substitution of base symbols leaves
    it as it is. *)
Theorem lookup_result_in_base_form (unit unit_si : string) (multiplier : float) :
  _get_si_unit unit = Some (unit_si, multiplier) ->
  (0 <? multiplier)%float = true /\ is_finite multiplier = true /\
  _ensure_si_unit unit_si = Ok () /\ noprefix unit_si = Ok unit_si.
Proof.
  intros H. split; [exact (get_si_unit_positive _ _ _ H)|].
  unfold _get_si_unit, _get_si_unit_in in H.
  destruct (first_some (try_si_unit unit) UNITS_SI) as [r|] eqn:E.
  - injection H as ->. apply first_some_In in E as (a & Ha & Hr).
    apply try_si_unit_symbol in Hr as [-> Hm].
    destruct (base_symbols_in_base_form _ Ha) as [Hn He].
    repeat split; auto.
    destruct Hm as [->|[p Hp]]; [reflexivity | exact (prefixes_finite _ _ Hp)].
  - apply table_get_In in H.
    destruct (non_si_targets_in_base_form _ _ _ H) as (Hn & He & Hf). auto.
Qed.

Lemma lookup_result_in_base_form_witness :
  (0 <? 2.95735296e-5)%float = true /\ is_finite 2.95735296e-5 = true /\
  _ensure_si_unit "m^3" = Ok () /\ noprefix "m^3" = Ok "m^3".
Proof.
  apply (lookup_result_in_base_form "floz" "m^3" 2.95735296e-5). reflexivity.
Defined.

(** ** The keys of the resolved dict *)

(** The elements of [l] that are not in [seen], each once, in the order
    of their first occurrence. *)
Fixpoint first_occurrences (seen l : list string) : list string :=
  match l with
  | [] => []
  | x :: l' =>
      if existsb (String.eqb x) seen then first_occurrences seen l'
      else x :: first_occurrences (seen ++ [x]) l'
  end.

Lemma dict_get_existsb (k : string) (d : dict) :
  existsb (String.eqb k) (keys d) = negb (is_None (dict_get k d)).
Proof.
  induction d as [|[k' v] d IH]; simpl; [reflexivity|].
  destruct (String.eqb k k'); [reflexivity | exact IH].
Qed.

Lemma fold_dict_set_keys (l : list string) (d : dict) :
  keys (fold_left (fun d name => dict_set name 1%float d) l d)
  = keys d ++ first_occurrences (keys d) l.
Proof.
  revert d. induction l as [|x l IH]; intros d; simpl.
  - now rewrite app_nil_r.
  - rewrite IH, dict_set_keys, dict_get_existsb.
    destruct (dict_get x d); simpl; [reflexivity|].
    now rewrite <- app_assoc.
Qed.

(** X4: the dict that [_get_unit_exponents] returns has one entry for
    each distinct run of letters of the string, in the order in which
    the runs first occur: the resolution changes exponents only, it
    neither adds, drops, nor reorders keys. *)
Theorem resolved_dict_keys (unit : string) (exponents : dict) :
  _get_unit_exponents unit = Ok exponents ->
  keys exponents = first_occurrences [] (letter_runs unit) /\
  NoDup (keys exponents) /\
  (forall tok, In tok (keys exponents) <-> In tok (letter_runs unit)).
Proof.
  intros H. apply get_unit_exponents_keys in H.
  assert (Hk : keys exponents = first_occurrences [] (letter_runs unit)).
  { rewrite H. unfold initial_exponents. now rewrite fold_dict_set_keys. }
  split; [exact Hk|]. split.
  - rewrite H. apply initial_exponents_NoDup.
  - intros tok. rewrite Hk.
    assert (G : forall l seen,
              In tok (first_occurrences seen l) <->
              In tok l /\ ~ In tok seen).
    { induction l as [|x l IH]; intros seen; simpl; [tauto|].
      destruct (existsb (String.eqb x) seen) eqn:E.
      - apply existsb_exists in E as (y & Hy & Exy).
        apply String.eqb_eq in Exy. subst y.
        rewrite IH. split; [tauto|]. intros [[->|Hin] Hs]; tauto.
      - assert (Hx : ~ In x seen).
        { intros Hx. assert (existsb (String.eqb x) seen = true); [|congruence].
          apply existsb_exists. exists x. split; [exact Hx | apply String.eqb_refl]. }
        simpl. rewrite IH, in_app_iff. simpl.
        destruct (String.eqb x tok) eqn:Ext.
        + apply String.eqb_eq in Ext. subst tok. tauto.
        + apply String.eqb_neq in Ext. tauto. }
    rewrite G. simpl. tauto.
Qed.

Lemma resolved_dict_keys_witness :
  keys [("kg", 1); ("m", 1); ("s", -2)]%float
    = first_occurrences [] (letter_runs "kg*m/s^2") /\
  NoDup (keys [("kg", 1); ("m", 1); ("s", -2)]%float) /\
  (forall tok, In tok (keys [("kg", 1); ("m", 1); ("s", -2)]%float)
               <-> In tok (letter_runs "kg*m/s^2")).
Proof.
  apply (resolved_dict_keys "kg*m/s^2" [("kg", 1); ("m", 1); ("s", -2)]%float).
  reflexivity.
Defined.

(** ** The exceptions of the resolver *)

(** The three errors of the validation. *)
Definition validation_exn (e : exn) : bool :=
  match e with
  | NameError_invalid_character _ _ | NameError_unbalanced_brackets _
  | NameError_not_a_valid_unit _ _ => true
  | _ => false
  end.

(** The three exceptions that the exponent resolution runs into after
    the validation. *)
Definition resolution_exn (e : exn) : bool :=
  match e with
  | TypeError_not_subscriptable | KeyError _ | ZeroDivisionError => true
  | _ => false
  end.

(** The exceptions of the resolver: those of the validation and those of
    the resolution. *)
Definition resolver_exn (e : exn) : bool :=
  validation_exn e || resolution_exn e.

Lemma ensure_exn (unit : string) (e : exn) :
  _ensure_si_unit unit = Raise e -> validation_exn e = true.
Proof.
  unfold _ensure_si_unit.
  destruct (find_char _ unit); [now intros [= <-]|].
  destruct (negb _); [now intros [= <-]|].
  destruct (List.find _ _); [now intros [= <-] | discriminate].
Qed.

Lemma exponent_value_exn (m : exponent_match) (e : exn) :
  exponent_value m = Raise e -> e = ZeroDivisionError.
Proof.
  destruct m as [num denom|digits]; simpl; [|discriminate].
  unfold float_div. destruct (_ =? 0)%float; [now intros [= <-] | discriminate].
Qed.

Lemma dict_imul_exn (k : string) (x : result float) (d : dict) (e : exn) :
  dict_imul k x d = Raise e -> e = KeyError k \/ x = Raise e.
Proof.
  unfold dict_imul. destruct (dict_get k d); [|intros [= <-]; now left].
  destruct x; simpl; [discriminate | intros [= <-]; now right].
Qed.

Lemma imul_all_exn (names : list string) (x : float) (d : dict) (e : exn) :
  imul_all names x d = Raise e -> resolution_exn e = true.
Proof.
  revert d. induction names as [|n names IH]; intros d; simpl; [discriminate|].
  destruct (dict_imul n (Ok x) d) as [d1|e1] eqn:E; simpl; [apply IH|].
  intros [= <-]. apply dict_imul_exn in E as [->|E]; [reflexivity | discriminate].
Qed.

Lemma fold_bracket_exn (pre inner post : string) (d : dict) (e : exn) :
  fold_bracket pre inner post d = Raise e -> resolution_exn e = true.
Proof.
  unfold fold_bracket.
  destruct (match post with String "^" after => _ | _ => _ end)
    as [[x post']|e1] eqn:E1.
  - simpl.
    destruct (match last_char pre with Some "/"%char => _ | _ => _ end) as [x' pre'].
    destruct (imul_all (letter_runs inner) x' d) as [d1|e2] eqn:E2; [discriminate|].
    simpl. intros [= <-]. now apply imul_all_exn in E2.
  - simpl. intros [= <-].
    destruct post as [|c after]; [discriminate|].
    destruct (Ascii.eqb c "^") eqn:Ec.
    + apply Ascii.eqb_eq in Ec. subst c.
      destruct (match_exponent after) as [[m rest]|]; [|now injection E1 as <-].
      destruct (exponent_value m) as [v|e2] eqn:Ev; [discriminate|].
      simpl in E1. injection E1 as <-. now apply exponent_value_exn in Ev as ->.
    + destruct c as [[] [] [] [] [] [] [] []]; discriminate.
Qed.

Lemma remove_brackets_exn (_unit : string) (d : dict) (e : exn) :
  remove_brackets _unit d = Raise e -> resolution_exn e = true.
Proof.
  funelim (remove_brackets _unit d); intros Hr.
  - discriminate.
  - now apply H.
  - injection Hr as <-. match goal with
    | Hf : fold_bracket _ _ _ _ = Raise _ |- _ => exact (fold_bracket_exn _ _ _ _ _ Hf)
    end.
Qed.

Lemma handle_exponents_exn (run _unit : string) (d : dict) (e : exn) :
  handle_exponents run _unit d = Raise e -> resolution_exn e = true.
Proof.
  revert run d. induction _unit as [|c s IH]; intros run d; simpl; [discriminate|].
  destruct (is_letter c); [apply IH|].
  destruct (is_char c "^" && negb (is_empty run)); [|apply IH].
  destruct (match_exponent s) as [[m rest]|]; [|now intros [= <-]].
  destruct (dict_imul run (exponent_value m) d) as [d1|e1] eqn:E; simpl; [apply IH|].
  intros [= <-]. apply dict_imul_exn in E as [->|E]; [reflexivity|].
  now apply exponent_value_exn in E as ->.
Qed.

Lemma negate_exn (run : option string) (d : dict) (e : exn) :
  negate run d = Raise e -> resolution_exn e = true.
Proof.
  destruct run as [[|c r]|]; simpl; try discriminate.
  intros H. apply dict_imul_exn in H as [->|H]; [reflexivity | discriminate].
Qed.

Lemma handle_divisions_exn (run : option string) (_unit : string) (d : dict) (e : exn) :
  handle_divisions run _unit d = Raise e -> resolution_exn e = true.
Proof.
  revert run d. induction _unit as [|c s IH]; intros run d; cbn [handle_divisions].
  - apply negate_exn.
  - destruct run as [r|]; [|apply IH].
    destruct (is_letter c); [apply IH|].
    destruct (negate (Some r) d) as [d1|e1] eqn:E; cbn [bind]; [apply IH|].
    intros [= <-]. now apply negate_exn in E.
Qed.

Lemma get_unit_exponents_exn (unit : string) (e : exn) :
  _get_unit_exponents unit = Raise e ->
  _ensure_si_unit unit = Raise e /\ validation_exn e = true \/
  _ensure_si_unit unit = Ok () /\ resolution_exn e = true.
Proof.
  unfold _get_unit_exponents.
  destruct (_ensure_si_unit unit) as [[]|e0] eqn:E0; simpl.
  - intros H. right. split; [reflexivity|]. revert H.
    destruct (remove_brackets _ _) as [[u d1]|e1] eqn:E1; simpl.
    + destruct (handle_exponents "" u d1) as [d2|e2] eqn:E2; simpl.
      * apply handle_divisions_exn.
      * intros [= <-]. now apply handle_exponents_exn in E2.
    + intros [= <-]. now apply remove_brackets_exn in E1.
  - intros [= <-]. left. split; [reflexivity | exact (ensure_exn _ _ E0)].
Qed.

Lemma sub_letter_runs_exn (f : string -> result string) (run s : string) (e e0 : exn) :
  (forall tok e', f tok = Raise e' -> e' = e0) ->
  sub_letter_runs_from f run s = Raise e -> e = e0.
Proof.
  intros Hf. revert run. induction s as [|c s IH]; intros run; simpl.
  - destruct (is_empty run); [discriminate | apply Hf].
  - destruct (is_letter c); [apply IH|].
    destruct (if is_empty run then Ok "" else f run) as [r|e1] eqn:E1; simpl.
    + destruct (sub_letter_runs_from f "" s) as [rest|e2] eqn:E2; simpl; [discriminate|].
      intros [= <-]. exact (IH _ E2).
    + intros [= <-]. destruct (is_empty run); [discriminate | exact (Hf _ _ E1)].
Qed.

Lemma noprefix_exn (unit : string) (e : exn) :
  noprefix unit = Raise e -> e = TypeError_not_subscriptable.
Proof.
  unfold noprefix, sub_letter_runs. apply sub_letter_runs_exn.
  intros tok e'. destruct (_get_si_unit tok) as [[b m]|]; [discriminate|].
  now intros [= <-].
Qed.

(** ** Equality of floats *)

(** What [==] on floats decides: two zeros, two infinities of the same
    sign, or two equal finite numbers. *)
Definition same_number (f1 f2 : spec_float) : Prop :=
  match f1, f2 with
  | S754_zero _, S754_zero _ => True
  | S754_infinity s1, S754_infinity s2 => s1 = s2
  | S754_finite s1 m1 e1, S754_finite s2 m2 e2 => s1 = s2 /\ m1 = m2 /\ e1 = e2
  | _, _ => False
  end.

Lemma SFeqb_same_number (f1 f2 : spec_float) :
  SFeqb f1 f2 = true <-> same_number f1 f2.
Proof.
  unfold SFeqb.
  destruct f1 as [s1|s1| |s1 m1 e1], f2 as [s2|s2| |s2 m2 e2];
    cbn [SFcompare same_number].
  16: { change (Pos.compare_cont Eq m1 m2) with (Pos.compare m1 m2).
        destruct (Z.compare_spec e1 e2) as [He|He|He],
                 (Pos.compare_spec m1 m2) as [Hm|Hm|Hm];
          destruct s1, s2; simpl; split; try discriminate; try tauto;
          try (intros (_ & Hm' & He'); lia); try (intros (Hs & _); discriminate). }
  all: try destruct s1; try destruct s2; split; intros H;
    try discriminate; try tauto; try congruence; try reflexivity.
Qed.

Lemma same_number_sym (f1 f2 : spec_float) :
  same_number f1 f2 -> same_number f2 f1.
Proof.
  destruct f1 as [s1|s1| |s1 m1 e1], f2 as [s2|s2| |s2 m2 e2]; simpl; try tauto.
  - now intros ->.
  - now intros (-> & -> & ->).
Qed.

Lemma same_number_trans (f1 f2 f3 : spec_float) :
  same_number f1 f2 -> same_number f2 f3 -> same_number f1 f3.
Proof.
  destruct f1 as [s1|s1| |s1 m1 e1], f2 as [s2|s2| |s2 m2 e2],
           f3 as [s3|s3| |s3 m3 e3]; simpl; try tauto.
  - now intros -> ->.
  - now intros (-> & -> & ->) (-> & -> & ->).
Qed.

Lemma float_eqb_sym (x y : float) : (x =? y)%float = true -> (y =? x)%float = true.
Proof.
  rewrite !FloatAxioms.eqb_spec, !SFeqb_same_number. apply same_number_sym.
Qed.

Lemma float_eqb_trans (x y z : float) :
  (x =? y)%float = true -> (y =? z)%float = true -> (x =? z)%float = true.
Proof.
  rewrite !FloatAxioms.eqb_spec, !SFeqb_same_number. apply same_number_trans.
Qed.

(** ** Compatibility as a relation *)

(** The comparison at the end of [units_compatible]. *)
Definition dicts_agree (d1 d2 : dict) : Prop :=
  length d1 = length d2 /\
  forall k v1, In (k, v1) d1 ->
    exists v2, dict_get k d2 = Some v2 /\ (v2 =? v1)%float = true.

Lemma existsb_differs (d1 d2 : dict) :
  existsb (differs d2) d1 = false <->
  forall k v1, In (k, v1) d1 ->
    exists v2, dict_get k d2 = Some v2 /\ (v2 =? v1)%float = true.
Proof.
  split.
  - intros H k v1 Hin.
    assert (Hd : differs d2 (k, v1) = false).
    { destruct (differs d2 (k, v1)) eqn:E; [|reflexivity].
      assert (existsb (differs d2) d1 = true); [|congruence].
      apply existsb_exists. now exists (k, v1). }
    unfold differs in Hd. cbn [fst snd] in Hd.
    destruct (dict_get k d2) as [v2|]; [|discriminate].
    exists v2. split; [reflexivity|]. now destruct (v2 =? v1)%float.
  - intros H. apply existsb_false. intros [k v1] Hin.
    destruct (H k v1 Hin) as (v2 & Hg & He).
    unfold differs. cbn [fst snd]. now rewrite Hg, He.
Qed.

Lemma dict_get_In_pair (k : string) (v : float) (d : dict) :
  dict_get k d = Some v -> In (k, v) d.
Proof.
  induction d as [|[k' v'] d IH]; simpl; [discriminate|].
  destruct (String.eqb k k') eqn:E.
  - apply String.eqb_eq in E. intros [= ->]. left. now subst.
  - intros H. right. now apply IH.
Qed.

Lemma keys_In (k : string) (d : dict) :
  In k (keys d) -> exists v, In (k, v) d.
Proof.
  unfold keys. intros H. apply in_map_iff in H as ([k' v] & Hk & Hin).
  simpl in Hk. subst k'. now exists v.
Qed.

Lemma dicts_agree_sym (d1 d2 : dict) :
  NoDup (keys d1) -> NoDup (keys d2) -> dicts_agree d1 d2 -> dicts_agree d2 d1.
Proof.
  intros N1 N2 [Hlen H]. split; [now symmetry|].
  assert (Hincl : incl (keys d2) (keys d1)).
  { apply List.NoDup_length_incl; [now apply NoDup_ListNoDup | |].
    - unfold keys. rewrite !length_map. lia.
    - intros k Hk. apply keys_In in Hk as [v1 Hin].
      destruct (H k v1 Hin) as (v2 & Hg & _). exact (dict_get_In _ _ _ Hg). }
  intros k v2 Hin2.
  assert (Hk : In k (keys d1)).
  { apply Hincl. change k with (fst (k, v2)). now apply in_map. }
  apply keys_In in Hk as [v1 Hin1].
  destruct (H k v1 Hin1) as (v2' & Hg & He).
  rewrite (dict_get_NoDup _ _ _ N2 Hin2) in Hg. injection Hg as <-.
  exists v1. split; [exact (dict_get_NoDup _ _ _ N1 Hin1) | now apply float_eqb_sym].
Qed.

Lemma dicts_agree_trans (d1 d2 d3 : dict) :
  dicts_agree d1 d2 -> dicts_agree d2 d3 -> dicts_agree d1 d3.
Proof.
  intros [L12 H12] [L23 H23]. split; [congruence|].
  intros k v1 Hin. destruct (H12 k v1 Hin) as (v2 & Hg2 & E2).
  destruct (H23 k v2 (dict_get_In_pair _ _ _ Hg2)) as (v3 & Hg3 & E3).
  exists v3. split; [exact Hg3 | exact (float_eqb_trans _ _ _ E3 E2)].
Qed.

(** What a call of [units_compatible] that returns has gone through. *)
Lemma units_compatible_returns (unit1 unit2 : string) (r : bool) :
  units_compatible unit1 unit2 = Ok r <->
  exists d1 d2,
    _ensure_si_unit unit1 = Ok () /\ _ensure_si_unit unit2 = Ok () /\
    base_exponents unit1 = Ok d1 /\ base_exponents unit2 = Ok d2 /\
    r = (length d1 =? length d2) && negb (existsb (differs d2) d1).
Proof.
  unfold units_compatible, base_exponents. split.
  - destruct (_ensure_si_unit unit1) as [[]|]; [|discriminate]. cbn [bind].
    destruct (_ensure_si_unit unit2) as [[]|]; [|discriminate]. cbn [bind].
    destruct (noprefix unit1) as [u1|]; [|discriminate]. cbn [bind].
    destruct (noprefix unit2) as [u2|]; [|discriminate]. cbn [bind].
    destruct (_get_unit_exponents u1) as [d1|]; [|discriminate]. cbn [bind].
    destruct (_get_unit_exponents u2) as [d2|]; [|discriminate]. cbn [bind].
    intros H. exists d1, d2. repeat split.
    destruct (length d1 =? length d2); cbn [negb] in H; now injection H as <-.
  - intros (d1 & d2 & -> & -> & H1 & H2 & ->). cbn [bind].
    destruct (noprefix unit1) as [u1|]; [|discriminate]. cbn [bind] in *.
    destruct (noprefix unit2) as [u2|]; [|discriminate]. cbn [bind] in *.
    rewrite H1, H2. cbn [bind]. now destruct (length d1 =? length d2).
Qed.

Lemma base_exponents_NoDup (unit : string) (d : dict) :
  base_exponents unit = Ok d -> NoDup (keys d).
Proof.
  unfold base_exponents. destruct (noprefix unit) as [u|]; [|discriminate].
  cbn [bind]. intros H. rewrite (get_unit_exponents_keys _ _ H).
  apply initial_exponents_NoDup.
Qed.

Lemma agree_bool (d1 d2 : dict) :
  (length d1 =? length d2) && negb (existsb (differs d2) d1) = true <->
  dicts_agree d1 d2.
Proof.
  unfold dicts_agree. rewrite <- existsb_differs, andb_true_iff, Nat.eqb_eq.
  now destruct (existsb (differs d2) d1).
Qed.

(** The comparison gives the same in both directions. *)
Lemma agree_bool_sym (d1 d2 : dict) :
  NoDup (keys d1) -> NoDup (keys d2) ->
  (length d1 =? length d2) && negb (existsb (differs d2) d1)
  = (length d2 =? length d1) && negb (existsb (differs d1) d2).
Proof.
  intros N1 N2.
  pose proof (agree_bool d1 d2) as A12. pose proof (agree_bool d2 d1) as A21.
  destruct ((length d1 =? length d2) && negb (existsb (differs d2) d1)) eqn:E12,
           ((length d2 =? length d1) && negb (existsb (differs d1) d2)) eqn:E21;
    try reflexivity.
  - assert (dicts_agree d2 d1) by (apply dicts_agree_sym; tauto).
    destruct A21 as [_ A21]. symmetry. now apply A21.
  - assert (dicts_agree d1 d2) by (apply dicts_agree_sym; tauto).
    destruct A12 as [_ A12]. now apply A12.
Qed.

Lemma units_compatible_swap (unit1 unit2 : string) (r : bool) :
  units_compatible unit1 unit2 = Ok r -> units_compatible unit2 unit1 = Ok r.
Proof.
  rewrite !units_compatible_returns.
  intros (d1 & d2 & V1 & V2 & H1 & H2 & ->).
  exists d2, d1. repeat split; auto.
  apply agree_bool_sym; eapply base_exponents_NoDup; eauto.
Qed.

(** X6: the compatibility test is symmetric: it returns a value for
    two strings exactly when it returns that value for the two strings
    in the other order. *)
Theorem units_compatible_symmetric (unit1 unit2 : string) (r : bool) :
  units_compatible unit1 unit2 = Ok r <-> units_compatible unit2 unit1 = Ok r.
Proof. split; apply units_compatible_swap. Qed.

Lemma units_compatible_symmetric_witness :
  units_compatible "ft/h" "km/s" = Ok true.
Proof.
  apply (proj1 (units_compatible_symmetric "km/s" "ft/h" true)). reflexivity.
Defined.

(** X7: the compatibility test is transitive: two strings that are each
    found compatible with a third are found compatible with each
    other. *)
Theorem units_compatible_transitive (unit1 unit2 unit3 : string) :
  units_compatible unit1 unit2 = Ok true ->
  units_compatible unit2 unit3 = Ok true ->
  units_compatible unit1 unit3 = Ok true.
Proof.
  rewrite !units_compatible_returns.
  intros (d1 & d2 & V1 & V2 & H1 & H2 & E12) (d2' & d3 & _ & V3 & H2' & H3 & E23).
  rewrite H2 in H2'. injection H2' as <-.
  exists d1, d3. repeat split; auto.
  symmetry. apply agree_bool.
  apply (dicts_agree_trans d1 d2 d3); apply agree_bool; now symmetry.
Qed.

Lemma units_compatible_transitive_witness :
  units_compatible "mi/h" "cm/ms" = Ok true.
Proof.
  apply (units_compatible_transitive "mi/h" "m/s" "cm/ms"); reflexivity.
Defined.

(** ** The substitution of base symbols *)

Lemma all_chars_append (p : ascii -> bool) (a b : string) :
  all_chars p (a +:+ b) = all_chars p a && all_chars p b.
Proof.
  induction a as [|c a IH]; simpl; [reflexivity|]. now rewrite IH, andb_assoc.
Qed.

Lemma count_char_append (x : ascii) (a b : string) :
  count_char x (a +:+ b) = count_char x a + count_char x b.
Proof.
  induction a as [|c a IH]; cbn [count_char String.append]; [reflexivity|].
  rewrite IH. lia.
Qed.

Lemma flush_app (run : string) (l1 l2 : list string) :
  flush run (l1 ++ l2) = flush run l1 ++ l2.
Proof. unfold flush. now destruct (is_empty run). Qed.

(** The runs of letters on the two sides of a character that is not a
    letter. *)
Lemma letter_runs_from_split (run a : string) (c : ascii) (b : string) :
  is_letter c = false ->
  letter_runs_from run (a +:+ String c b)
  = letter_runs_from run a ++ letter_runs b.
Proof.
  intros Hc. revert run. induction a as [|x a IH]; intros run.
  - cbn [String.append letter_runs_from]. rewrite Hc.
    unfold letter_runs. now rewrite <- flush_app.
  - cbn [String.append letter_runs_from]. destruct (is_letter x); [apply IH|].
    now rewrite IH, flush_app.
Qed.

Lemma sub_letter_runs_from_split
    (f : string -> result string) (run a : string) (c : ascii) (b : string) :
  is_letter c = false ->
  sub_letter_runs_from f run (a +:+ String c b)
  = let* ra := sub_letter_runs_from f run a in
    let* rb := sub_letter_runs_from f "" b in
    Ok (ra +:+ String c rb).
Proof.
  intros Hc. revert run. induction a as [|x a IH]; intros run.
  - cbn [String.append sub_letter_runs_from]. now rewrite Hc.
  - cbn [String.append sub_letter_runs_from]. destruct (is_letter x); [apply IH|].
    destruct (if is_empty run then Ok "" else f run) as [r|e]; cbn [bind];
      [|reflexivity].
    rewrite IH.
    destruct (sub_letter_runs_from f "" a) as [ra|e]; cbn [bind]; [|reflexivity].
    destruct (sub_letter_runs_from f "" b) as [rb|e]; cbn [bind]; [|reflexivity].
    now rewrite append_assoc.
Qed.

Definition unresolved (tok : string) : bool := is_None (_get_si_unit tok).

(** A string that is in base form: allowed characters, no brackets,
    runs of letters that resolve, and left as it is by the
    substitution. *)
Definition in_base_form (r : string) : Prop :=
  all_chars is_allowed r = true /\
  count_char "(" r = 0 /\ count_char ")" r = 0 /\
  List.find unresolved (letter_runs r) = None /\
  noprefix r = Ok r.

Lemma lookup_symbol_in_base_form (tok b : string) (m : float) :
  _get_si_unit tok = Some (b, m) -> in_base_form b.
Proof.
  unfold _get_si_unit, _get_si_unit_in, in_base_form.
  destruct (first_some (try_si_unit tok) UNITS_SI) as [r|] eqn:E.
  - intros [= ->]. apply first_some_In in E as (a & Ha & Hr).
    apply try_si_unit_symbol in Hr as [-> _].
    unfold UNITS_SI in Ha. cbn [In] in Ha.
    repeat (destruct Ha as [<-|Ha]; [repeat split; vm_compute; reflexivity|]).
    contradiction.
  - intros H. apply table_get_In in H. unfold NON_SI_MAP in H. cbn [In] in H.
    repeat (destruct H as [[= <- <- <-]|H]; [repeat split; vm_compute; reflexivity|]).
    contradiction.
Qed.

(** The function that [noprefix] puts in place of a run of letters. *)
Definition base_symbol (name : string) : result string :=
  match _get_si_unit name with
  | Some (unit_si, _) => Ok unit_si
  | None => Raise TypeError_not_subscriptable
  end.

Lemma base_symbol_in_base_form (run r : string) :
  (if is_empty run then Ok "" else base_symbol run) = Ok r -> in_base_form r.
Proof.
  destruct (is_empty run).
  - intros [= <-]. repeat split; reflexivity.
  - unfold base_symbol. destruct (_get_si_unit run) as [[b m]|] eqn:E; [|discriminate].
    intros [= <-]. exact (lookup_symbol_in_base_form _ _ _ E).
Qed.

Lemma find_app_none {A : Type} (p : A -> bool) (l1 l2 : list A) :
  List.find p l1 = None -> List.find p l2 = None -> List.find p (l1 ++ l2) = None.
Proof.
  induction l1 as [|x l1 IH]; simpl; [auto|].
  destruct (p x); [discriminate | exact IH].
Qed.

(** What the scan of [noprefix] returns, from any point of the string
    on: the characters that are not letters are kept, and the result is
    left as it is by a second substitution. *)
Lemma substitution_result (run s u' : string) :
  sub_letter_runs_from base_symbol run s = Ok u' ->
  (all_chars is_allowed s = true -> all_chars is_allowed u' = true) /\
  count_char "(" u' = count_char "(" s /\
  count_char ")" u' = count_char ")" s /\
  List.find unresolved (letter_runs u') = None /\
  noprefix u' = Ok u'.
Proof.
  revert run u'. induction s as [|c s IH]; intros run u'.
  - cbn [sub_letter_runs_from]. intros H.
    apply base_symbol_in_base_form in H as (Ha & Ho & Hc & Hf & Hn). auto.
  - cbn [sub_letter_runs_from all_chars count_char].
    destruct (is_letter c) eqn:Ec.
    + intros H. destruct (IH _ _ H) as (Ha & Ho & Hc & Hf & Hn).
      destruct (letter_not_bracket _ Ec) as [-> ->].
      rewrite (letter_allowed _ Ec). auto.
    + destruct (if is_empty run then Ok "" else base_symbol run) as [r|] eqn:Er;
        cbn [bind]; [|discriminate].
      destruct (sub_letter_runs_from base_symbol "" s) as [rest|] eqn:Es;
        cbn [bind]; [|discriminate].
      intros [= <-].
      apply base_symbol_in_base_form in Er as (Ra & Ro & Rc & Rf & Rn).
      destruct (IH _ _ Es) as (Ha & Ho & Hc & Hf & Hn).
      repeat split.
      * intros [Hca Hs]%andb_prop. rewrite all_chars_append, Ra.
        cbn [all_chars andb]. now rewrite Hca, (Ha Hs).
      * rewrite count_char_append, Ro. cbn [count_char]. now rewrite Ho.
      * rewrite count_char_append, Rc. cbn [count_char]. now rewrite Hc.
      * unfold letter_runs. rewrite (letter_runs_from_split _ _ _ _ Ec).
        now apply find_app_none.
      * unfold noprefix, sub_letter_runs in *.
        fold base_symbol in *.
        rewrite (sub_letter_runs_from_split _ _ _ _ _ Ec), Rn, Hn. reflexivity.
Qed.

(** The scan succeeds when every run it meets resolves. *)
Lemma substitution_succeeds (run s : string) :
  List.find unresolved (letter_runs_from run s) = None ->
  exists u', sub_letter_runs_from base_symbol run s = Ok u'.
Proof.
  assert (Hrun : forall run l, List.find unresolved (flush run l) = None ->
             (exists r, (if is_empty run then Ok "" else base_symbol run) = Ok r) /\
             List.find unresolved l = None).
  { intros r l. unfold flush. destruct (is_empty r); [eauto|].
    cbn [List.find]. unfold unresolved at 1, base_symbol.
    destruct (_get_si_unit r) as [[b m]|]; cbn [is_None]; [eauto | discriminate]. }
  revert run. induction s as [|c s IH]; intros run;
    cbn [letter_runs_from sub_letter_runs_from].
  - intros H. now apply Hrun in H as [H _].
  - destruct (is_letter c); [apply IH|].
    intros H. apply Hrun in H as [[r ->] H]. cbn [bind].
    destruct (IH _ H) as [rest ->]. cbn [bind]. eauto.
Qed.

(** The substitution on a string that passes the validation. *)
Lemma noprefix_of_valid (unit : string) :
  _ensure_si_unit unit = Ok () ->
  exists u', noprefix unit = Ok u' /\ _ensure_si_unit u' = Ok () /\
             noprefix u' = Ok u'.
Proof.
  intros Hv. unfold _ensure_si_unit in Hv.
  destruct (find_char _ unit) eqn:Ef; [discriminate|].
  destruct (count_char "(" unit =? count_char ")" unit) eqn:Ec; [|discriminate].
  cbn [negb] in Hv.
  destruct (List.find _ (letter_runs unit)) eqn:El; [discriminate|].
  destruct (substitution_succeeds "" unit El) as [u' Hu].
  destruct (substitution_result _ _ _ Hu) as (Ha & Ho & Hc & Hf & Hn).
  exists u'. split; [exact Hu|]. split; [|exact Hn].
  unfold _ensure_si_unit.
  rewrite (find_char_allowed _ (Ha (find_char_none_all _ _ Ef))), Ho, Hc, Ec.
  cbn [negb]. fold unresolved. now rewrite Hf.
Qed.

(** X11: the substitution of base symbols is idempotent: the string it
    returns is left as it is by a second substitution, and has the same
    numbers of opening and of closing brackets as the string given. *)
Theorem substitution_idempotent (unit unit_noprefix : string) :
  noprefix unit = Ok unit_noprefix ->
  noprefix unit_noprefix = Ok unit_noprefix /\
  count_char "(" unit_noprefix = count_char "(" unit /\
  count_char ")" unit_noprefix = count_char ")" unit.
Proof.
  intros H. destruct (substitution_result "" unit unit_noprefix H)
    as (_ & Ho & Hc & _ & Hn). auto.
Qed.

Lemma substitution_idempotent_witness :
  noprefix "m^3/(s*g)" = Ok "m^3/(s*g)" /\
  count_char "(" "m^3/(s*g)" = count_char "(" "floz/(h*kg)" /\
  count_char ")" "m^3/(s*g)" = count_char ")" "floz/(h*kg)".
Proof.
  apply (substitution_idempotent "floz/(h*kg)" "m^3/(s*g)"). reflexivity.
Defined.

(** X5: on a string that passes the validation the substitution of
    base symbols returns a string that passes the validation too: the
    second validation, at the start of the exponent resolution inside
    [units_compatible], cannot fail, and a [NameError] of
    [units_compatible] is always the error that the validation gives
    for one of the two strings of the call, the first when both are
    bad. *)
Theorem units_compatible_name_errors (unit1 unit2 : string) (e : exn) :
  units_compatible unit1 unit2 = Raise e ->
  _ensure_si_unit unit1 = Raise e /\ validation_exn e = true \/
  _ensure_si_unit unit1 = Ok () /\ _ensure_si_unit unit2 = Raise e /\
    validation_exn e = true \/
  _ensure_si_unit unit1 = Ok () /\ _ensure_si_unit unit2 = Ok () /\
    resolution_exn e = true.
Proof.
  unfold units_compatible.
  destruct (_ensure_si_unit unit1) as [[]|e1] eqn:E1; cbn [bind];
    [|intros [= <-]; left; split; [reflexivity | exact (ensure_exn _ _ E1)]].
  destruct (_ensure_si_unit unit2) as [[]|e2] eqn:E2; cbn [bind];
    [|intros [= <-]; right; left; repeat split; exact (ensure_exn _ _ E2)].
  destruct (noprefix_of_valid _ E1) as (u1 & -> & V1 & _).
  destruct (noprefix_of_valid _ E2) as (u2 & -> & V2 & _). cbn [bind].
  intros H. right. right. repeat split. revert H.
  destruct (_get_unit_exponents u1) as [d1|e5] eqn:E5; cbn [bind].
  - destruct (_get_unit_exponents u2) as [d2|e6] eqn:E6; cbn [bind];
      [now destruct (negb _)|].
    intros [= <-]. apply get_unit_exponents_exn in E6 as [[E _]|[_ E]];
      [congruence | exact E].
  - intros [= <-]. apply get_unit_exponents_exn in E5 as [[E _]|[_ E]];
      [congruence | exact E].
Qed.

Lemma units_compatible_name_errors_witness :
  _ensure_si_unit "m/s" = Raise (NameError_not_a_valid_unit "xyz" "m*xyz") /\
    validation_exn (NameError_not_a_valid_unit "xyz" "m*xyz") = true \/
  _ensure_si_unit "m/s" = Ok () /\
    _ensure_si_unit "m*xyz" = Raise (NameError_not_a_valid_unit "xyz" "m*xyz") /\
    validation_exn (NameError_not_a_valid_unit "xyz" "m*xyz") = true \/
  _ensure_si_unit "m/s" = Ok () /\ _ensure_si_unit "m*xyz" = Ok () /\
    resolution_exn (NameError_not_a_valid_unit "xyz" "m*xyz") = true.
Proof.
  apply (units_compatible_name_errors "m/s" "m*xyz"). reflexivity.
Defined.

(** ** The cache under any call *)

(** X8: a call of [unit_conversion_factor] never removes or changes an
    entry of the cache, whatever the cache holds: it can only add an
    entry for the pair it was called with, and a call that raises leaves
    the cache as it was. *)
Theorem cache_only_grows
    (float_pow : float -> float -> result float) (c : cache)
    (source_unit target_unit : string) :
  let after := snd (unit_conversion_factor float_pow source_unit target_unit c) in
  (forall key v, c !! key = Some v -> after !! key = Some v) /\
  (forall key, key <> (source_unit, target_unit) -> after !! key = c !! key) /\
  (forall e,
     fst (unit_conversion_factor float_pow source_unit target_unit c) = Raise e ->
     after = c).
Proof.
  cbv zeta. unfold unit_conversion_factor.
  destruct (c !! (source_unit, target_unit)) as [factor|] eqn:E.
  - destruct (truthy factor); [repeat split; auto|].
    destruct (compute_factor float_pow source_unit target_unit);
      repeat split; auto.
  - destruct (compute_factor float_pow source_unit target_unit) as [f|e];
      cbn [fst snd]; repeat split; auto; try discriminate.
    + intros key v Hk. rewrite lookup_insert_ne; [exact Hk | congruence].
    + intros key Hne. now rewrite lookup_insert_ne.
Qed.

(** ** The errors of the conversion *)

Lemma resolver_exn_of_resolution (unit : string) (e : exn) :
  _get_unit_exponents unit = Raise e -> resolver_exn e = true.
Proof.
  intros H. unfold resolver_exn.
  apply get_unit_exponents_exn in H as [[_ ->]|[_ ->]];
    [reflexivity | apply orb_true_r].
Qed.

Lemma units_compatible_raises (unit1 unit2 : string) (e : exn) :
  units_compatible unit1 unit2 = Raise e -> resolver_exn e = true.
Proof.
  unfold units_compatible.
  destruct (_ensure_si_unit unit1) as [[]|e1] eqn:E1; cbn [bind];
    [|intros [= <-]; unfold resolver_exn; now rewrite (ensure_exn _ _ E1)].
  destruct (_ensure_si_unit unit2) as [[]|e2] eqn:E2; cbn [bind];
    [|intros [= <-]; unfold resolver_exn; now rewrite (ensure_exn _ _ E2)].
  destruct (noprefix unit1) as [u1|e3] eqn:E3; cbn [bind];
    [|intros [= <-]; now apply noprefix_exn in E3 as ->].
  destruct (noprefix unit2) as [u2|e4] eqn:E4; cbn [bind];
    [|intros [= <-]; now apply noprefix_exn in E4 as ->].
  destruct (_get_unit_exponents u1) as [d1|e5] eqn:E5; cbn [bind];
    [|intros [= <-]; now apply resolver_exn_of_resolution in E5].
  destruct (_get_unit_exponents u2) as [d2|e6] eqn:E6; cbn [bind];
    [|intros [= <-]; now apply resolver_exn_of_resolution in E6].
  now destruct (negb _).
Qed.

Lemma multiply_units_exn
    (float_pow : float -> float -> result float)
    (exponents : dict) (multiplier : float) (e : exn) :
  multiply_units float_pow exponents multiplier = Raise e ->
  e = TypeError_not_subscriptable \/ exists x y, float_pow x y = Raise e.
Proof.
  revert multiplier. induction exponents as [|[unit x] rest IH];
    intros multiplier; cbn [multiply_units]; [discriminate|].
  destruct (_get_si_unit unit) as [[b m]|]; [|intros [= <-]; now left].
  destruct (float_pow m x) as [p|e1] eqn:Ep; cbn [bind]; [apply IH|].
  intros [= <-]. right. now exists m, x.
Qed.

Lemma compute_factor_exn
    (float_pow : float -> float -> result float)
    (source_unit target_unit : string) (e : exn) :
  compute_factor float_pow source_unit target_unit = Raise e ->
  resolver_exn e = true \/
  e = NameError_units_incompatible source_unit target_unit \/
  exists x y, float_pow x y = Raise e.
Proof.
  unfold compute_factor.
  destruct (units_compatible source_unit target_unit) as [[]|e0] eqn:Ec;
    cbn [bind negb].
  - destruct (_get_unit_exponents source_unit) as [se|e1] eqn:Es; cbn [bind];
      [|intros [= <-]; left; now apply resolver_exn_of_resolution in Es].
    destruct (_get_unit_exponents target_unit) as [te|e2] eqn:Et; cbn [bind];
      [|intros [= <-]; left; now apply resolver_exn_of_resolution in Et].
    destruct (multiply_units float_pow se 1) as [ms|e3] eqn:Ems; cbn [bind];
      [|intros [= <-]; apply multiply_units_exn in Ems as [->|H]; auto].
    destruct (multiply_units float_pow te 1) as [mt|e4] eqn:Emt; cbn [bind];
      [|intros [= <-]; apply multiply_units_exn in Emt as [->|H]; auto].
    unfold float_div. destruct (mt =? 0)%float; [|discriminate].
    intros [= <-]. now left.
  - intros [= <-]. right. now left.
  - intros [= <-]. left. now apply units_compatible_raises in Ec.
Qed.

(** X9: an exception of [unit_conversion_factor] is one of the
    resolver's (the three errors of the validation, [TypeError],
    [KeyError], [ZeroDivisionError]), the incompatible-units error for
    the two strings of the call, or an exception of the power
    itself. *)
Theorem conversion_exceptions
    (float_pow : float -> float -> result float) (c : cache)
    (source_unit target_unit : string) (e : exn) :
  fst (unit_conversion_factor float_pow source_unit target_unit c) = Raise e ->
  resolver_exn e = true \/
  e = NameError_units_incompatible source_unit target_unit \/
  exists x y, float_pow x y = Raise e.
Proof.
  unfold unit_conversion_factor.
  assert (H : fst match compute_factor float_pow source_unit target_unit with
                  | Ok factor =>
                      (Ok factor,
                       match c !! (source_unit, target_unit) with
                       | Some _ => c
                       | None => <[(source_unit, target_unit):=factor]> c
                       end)
                  | Raise e => (Raise e, c)
                  end = Raise e ->
              resolver_exn e = true \/
              e = NameError_units_incompatible source_unit target_unit \/
              exists x y, float_pow x y = Raise e).
  { destruct (compute_factor float_pow source_unit target_unit) as [f|e0] eqn:Ec;
      cbn [fst]; [discriminate|].
    intros [= <-]. now apply compute_factor_exn. }
  destruct (c !! (source_unit, target_unit)) as [factor|]; [|exact H].
  destruct (truthy factor); [discriminate | exact H].
Qed.

Lemma conversion_exceptions_witness :
  resolver_exn ZeroDivisionError = true \/
  ZeroDivisionError = NameError_units_incompatible "fm^20*fs^20" "fm^20*fs^20" \/
  exists x y, pow_integral x y = Raise ZeroDivisionError.
Proof.
  apply (conversion_exceptions pow_integral ∅ "fm^20*fs^20" "fm^20*fs^20").
  reflexivity.
Defined.

(** X10: in a cache the program can be in, whatever the compatibility
    test raises, the conversion raises, and when the test returns false,
    the conversion raises the incompatible-units error for the two
    strings; in both cases the cache is left as it was. *)
Theorem conversion_needs_compatibility
    (float_pow : float -> float -> result float) (c : cache)
    (source_unit target_unit : string) :
  reachable float_pow c ->
  (forall e, units_compatible source_unit target_unit = Raise e ->
     unit_conversion_factor float_pow source_unit target_unit c = (Raise e, c)) /\
  (units_compatible source_unit target_unit = Ok false ->
     unit_conversion_factor float_pow source_unit target_unit c
     = (Raise (NameError_units_incompatible source_unit target_unit), c)).
Proof.
  intros Hc.
  assert (H : forall e, compute_factor float_pow source_unit target_unit = Raise e ->
              unit_conversion_factor float_pow source_unit target_unit c = (Raise e, c)).
  { intros e He. unfold unit_conversion_factor.
    destruct (c !! (source_unit, target_unit)) as [v|] eqn:E.
    - apply (reachable_sound _ _ Hc) in E. congruence.
    - now rewrite He. }
  split.
  - intros e He. apply H. unfold compute_factor. now rewrite He.
  - intros He. apply H. unfold compute_factor. now rewrite He.
Qed.

Lemma conversion_needs_compatibility_witness :
  unit_conversion_factor pow_integral "km" "kg" example_cache_2
  = (Raise (NameError_units_incompatible "km" "kg"), example_cache_2).
Proof.
  apply (conversion_needs_compatibility pow_integral example_cache_2 "km" "kg").
  - constructor. constructor. constructor.
  - reflexivity.
Defined.

(** ** Strings without brackets, powers or divisions *)

(** The string has no character [x]. *)
Definition lacks (x : ascii) (s : string) : bool :=
  all_chars (fun c => negb (is_char x c)) s.

Lemma lacks_sub_spaces (x : ascii) (prev : option ascii) (skip : nat) (s : string) :
  is_char x "*" = false -> lacks x s = true ->
  lacks x (sub_spaces prev skip s) = true.
Proof.
  intros Hx. unfold lacks. revert prev skip.
  induction s as [|c s IH]; intros prev skip; [reflexivity|].
  cbn [sub_spaces all_chars]. intros [Hc Hs]%andb_prop.
  assert (Hkeep : forall p k, all_chars (fun c => negb (is_char x c))
                                (String c (sub_spaces p k s)) = true).
  { intros p k. cbn [all_chars]. now rewrite Hc, IH. }
  assert (Hstar : forall p k, all_chars (fun c => negb (is_char x c))
                                (String "*" (sub_spaces p k s)) = true).
  { intros p k. cbn [all_chars]. now rewrite Hx, IH. }
  destruct skip as [|k]; [|now apply IH].
  destruct (is_space c && _); [|apply Hkeep].
  destruct (span is_space s) as [run rest].
  destruct rest as [|a rest'].
  - destruct (String.length run); [apply Hkeep | apply Hstar].
  - destruct (not_slash_star a); [apply Hstar|].
    destruct (String.length run); [apply Hkeep | apply Hstar].
Qed.

Lemma lacks_remove_spaces (x : ascii) (s : string) :
  lacks x s = true -> lacks x (remove_spaces s) = true.
Proof.
  unfold lacks. induction s as [|c s IH]; [reflexivity|].
  cbn [remove_spaces all_chars]. intros [Hc Hs]%andb_prop.
  destruct (is_char c " "); [now apply IH|].
  cbn [all_chars]. now rewrite Hc, IH.
Qed.

Lemma search_bracket_none (s : string) :
  lacks "(" s = true -> search_bracket s = None.
Proof.
  unfold lacks. induction s as [|c s IH]; [reflexivity|].
  cbn [search_bracket all_chars]. intros [Hc Hs]%andb_prop.
  rewrite (IH Hs).
  assert (E : is_char c "(" = false).
  { unfold is_char in *. rewrite Ascii.eqb_sym. now destruct (Ascii.eqb "(" c). }
  now rewrite E.
Qed.

Lemma remove_brackets_none (_unit : string) (d : dict) :
  search_bracket _unit = None -> remove_brackets _unit d = Ok (_unit, d).
Proof.
  intros H. funelim (remove_brackets _unit d); [reflexivity | congruence | congruence].
Qed.

Lemma handle_exponents_none (run _unit : string) (d : dict) :
  lacks "^" _unit = true -> handle_exponents run _unit d = Ok d.
Proof.
  unfold lacks. revert run. induction _unit as [|c s IH]; intros run; [reflexivity|].
  cbn [handle_exponents all_chars]. intros [Hc Hs]%andb_prop.
  destruct (is_letter c); [now apply IH|].
  assert (E : is_char c "^" = false).
  { unfold is_char in *. rewrite Ascii.eqb_sym. now destruct (Ascii.eqb "^" c). }
  rewrite E. now apply IH.
Qed.

Lemma handle_divisions_none (_unit : string) (d : dict) :
  lacks "/" _unit = true -> handle_divisions None _unit d = Ok d.
Proof.
  unfold lacks. induction _unit as [|c s IH]; [reflexivity|].
  cbn [handle_divisions all_chars]. intros [Hc Hs]%andb_prop.
  assert (E : is_char c "/" = false).
  { unfold is_char in *. rewrite Ascii.eqb_sym. now destruct (Ascii.eqb "/" c). }
  rewrite E. now apply IH.
Qed.

Lemma initial_exponents_values (unit name : string) (e : float) :
  In (name, e) (initial_exponents unit) -> e = 1%float.
Proof.
  unfold initial_exponents.
  assert (Hset : forall k d, (forall n x, In (n, x) d -> x = 1%float) ->
                 forall n x, In (n, x) (dict_set k 1%float d) -> x = 1%float).
  { intros k d. induction d as [|[k' v'] d IH]; intros Hd n x; simpl.
    - now intros [[= _ <-]|[]].
    - destruct (String.eqb k k'); simpl.
      + intros [[= _ <-]|Hin]; [reflexivity|]. apply (Hd n x). now right.
      + intros [[= <- <-]|Hin]; [apply (Hd k' v'); now left|].
        apply (IH (fun n x H => Hd n x (or_intror H)) n x Hin). }
  assert (H : forall l d, (forall n x, In (n, x) d -> x = 1%float) ->
              forall n x, In (n, x) (fold_left (fun d name => dict_set name 1%float d) l d) ->
              x = 1%float).
  { induction l as [|k l IH]; intros d Hd; simpl; [exact Hd|].
    apply IH. now apply Hset. }
  apply H. intros n x [].
Qed.

(** X12: in a valid string without brackets, [^] and [/], that is, a
    product of units written with [*] or blanks, every unit gets the
    exponent 1.0, and a unit that occurs several times is counted
    once. *)
Theorem product_exponents (unit : string) :
  _ensure_si_unit unit = Ok () ->
  lacks "(" unit = true -> lacks "^" unit = true -> lacks "/" unit = true ->
  _get_unit_exponents unit = Ok (initial_exponents unit) /\
  keys (initial_exponents unit) = first_occurrences [] (letter_runs unit) /\
  (forall name e, In (name, e) (initial_exponents unit) -> e = 1%float).
Proof.
  intros Hv Hb He Hd. split; [|split].
  - unfold _get_unit_exponents. rewrite Hv. cbn [bind].
    rewrite remove_brackets_none.
    + cbn [bind]. rewrite handle_exponents_none; cbn [bind].
      * apply handle_divisions_none.
        now apply lacks_remove_spaces, lacks_sub_spaces.
      * now apply lacks_remove_spaces, lacks_sub_spaces.
    + apply search_bracket_none.
      now apply lacks_remove_spaces, lacks_sub_spaces.
  - unfold initial_exponents. now rewrite fold_dict_set_keys.
  - apply initial_exponents_values.
Qed.

Lemma product_exponents_witness :
  _get_unit_exponents "kg m  s*A" = Ok (initial_exponents "kg m  s*A") /\
  keys (initial_exponents "kg m  s*A")
    = first_occurrences [] (letter_runs "kg m  s*A") /\
  (forall name e, In (name, e) (initial_exponents "kg m  s*A") -> e = 1%float).
Proof.
  apply (product_exponents "kg m  s*A"); reflexivity.
Defined.

(** ** One division, one power *)

(** A unit name: a run of letters that the registry resolves. *)
Definition is_token (t : string) : Prop :=
  all_chars is_letter t = true /\ t <> "" /\ _get_si_unit t <> None.

Lemma all_chars_impl (p q : ascii -> bool) (s : string) :
  (forall c, p c = true -> q c = true) ->
  all_chars p s = true -> all_chars q s = true.
Proof.
  intros Hpq. induction s as [|c s IH]; simpl; [reflexivity|].
  intros [Hc Hs]%andb_prop. now rewrite (Hpq _ Hc), IH.
Qed.

Lemma sub_spaces_no_space (prev : option ascii) (s : string) :
  all_chars (fun c => negb (is_space c)) s = true -> sub_spaces prev 0 s = s.
Proof.
  revert prev. induction s as [|c s IH]; intros prev; [reflexivity|].
  cbn [sub_spaces all_chars]. intros [Hc Hs]%andb_prop.
  destruct (is_space c); [discriminate|]. cbn [andb]. now rewrite IH.
Qed.

Lemma remove_spaces_no_space (s : string) :
  all_chars (fun c => negb (is_space c)) s = true -> remove_spaces s = s.
Proof.
  induction s as [|c s IH]; [reflexivity|].
  cbn [remove_spaces all_chars]. intros [Hc Hs]%andb_prop.
  assert (E : is_char c " " = false).
  { destruct (is_char c " ") eqn:E; [|reflexivity].
    apply Ascii.eqb_eq in E. subst c. discriminate. }
  now rewrite E, IH.
Qed.

Lemma letter_runs_from_no_letter (s : string) :
  all_chars (fun c => negb (is_letter c)) s = true -> letter_runs s = [].
Proof.
  unfold letter_runs. induction s as [|c s IH]; [reflexivity|].
  cbn [letter_runs_from all_chars]. intros [Hc Hs]%andb_prop.
  destruct (is_letter c); [discriminate|]. now rewrite IH.
Qed.

Lemma handle_exponents_letters (run a rest : string) (d : dict) :
  all_chars is_letter a = true ->
  handle_exponents run (a +:+ rest) d = handle_exponents (run +:+ a) rest d.
Proof.
  revert run. induction a as [|c a IH]; intros run.
  - now rewrite append_empty_r.
  - cbn [all_chars String.append handle_exponents]. intros [-> Ha]%andb_prop.
    now rewrite IH, snoc_append.
Qed.

Lemma handle_divisions_letters_none (a rest : string) (d : dict) :
  all_chars is_letter a = true ->
  handle_divisions None (a +:+ rest) d = handle_divisions None rest d.
Proof.
  induction a as [|c a IH]; [reflexivity|].
  cbn [all_chars String.append handle_divisions]. intros [Hc Ha]%andb_prop.
  assert (E : is_char c "/" = false)
    by (destruct c as [[] [] [] [] [] [] [] []]; try discriminate; reflexivity).
  rewrite E. now apply IH.
Qed.

Lemma handle_divisions_letters_some (run b : string) (d : dict) :
  all_chars is_letter b = true ->
  handle_divisions (Some run) b d = negate (Some (run +:+ b)) d.
Proof.
  revert run. induction b as [|c b IH]; intros run.
  - now rewrite append_empty_r.
  - cbn [all_chars handle_divisions]. intros [-> Hb]%andb_prop.
    now rewrite IH, snoc_append.
Qed.

Ltac letter_class :=
  let c := fresh "c" in
  intros c; destruct c as [[] [] [] [] [] [] [] []]; try discriminate; reflexivity.

Lemma token_plain (t : string) :
  all_chars is_letter t = true ->
  all_chars is_allowed t = true /\
  all_chars (fun c => negb (is_space c)) t = true /\
  lacks "(" t = true /\ lacks ")" t = true /\ lacks "^" t = true /\
  lacks "/" t = true.
Proof.
  intros H. unfold lacks.
  repeat split; revert H; apply all_chars_impl; letter_class.
Qed.

Lemma count_char_lacks (x : ascii) (s : string) :
  lacks x s = true -> count_char x s = 0.
Proof.
  unfold lacks. induction s as [|c s IH]; [reflexivity|].
  cbn [all_chars count_char]. intros [Hc Hs]%andb_prop.
  destruct (is_char x c); [discriminate|]. now rewrite IH.
Qed.

(** The validation of a string of allowed characters without brackets
    is down to its runs of letters. *)
Lemma ensure_plain (s : string) :
  all_chars is_allowed s = true -> lacks "(" s = true -> lacks ")" s = true ->
  List.find unresolved (letter_runs s) = None ->
  _ensure_si_unit s = Ok ().
Proof.
  intros Ha Ho Hc Hf. unfold _ensure_si_unit.
  rewrite (find_char_allowed _ Ha), (count_char_lacks _ _ Ho), (count_char_lacks _ _ Hc).
  cbn [Nat.eqb negb]. fold unresolved. now rewrite Hf.
Qed.

Lemma token_runs (t : string) :
  is_token t -> letter_runs t = [t] /\ List.find unresolved [t] = None.
Proof.
  intros (Hl & Hne & Hr). split; [now apply letter_runs_token|].
  cbn [List.find]. unfold unresolved. now destruct (_get_si_unit t).
Qed.

Lemma negate_after_set (a b : string) :
  dict_imul b (Ok (-1)%float)
    (fold_left (fun d name => dict_set name 1%float d) [a; b] [])
  = Ok (if String.eqb a b then [(a, (-1)%float)]
        else [(a, 1%float); (b, (-1)%float)]).
Proof.
  unfold dict_imul. cbn [fold_left dict_set].
  destruct (String.eqb_spec b a) as [->|Hne].
  - cbn [dict_get dict_set bind]. now rewrite !String.eqb_refl.
  - assert (E : String.eqb a b = false) by (apply String.eqb_neq; congruence).
    assert (E' : String.eqb b a = false) by (now apply String.eqb_neq).
    cbn [dict_get dict_set bind]. rewrite E, E', !String.eqb_refl.
    reflexivity.
Qed.

(** X13: the quotient of two unit names.  The second name gets the
    exponent -1.0 and the first keeps 1.0; when the two names are the
    same, the one entry of the dict gets -1.0. *)
Theorem quotient_exponents (a b : string) :
  is_token a -> is_token b ->
  _get_unit_exponents (a +:+ "/" +:+ b) =
    Ok (if String.eqb a b then [(a, (-1)%float)]
        else [(a, 1%float); (b, (-1)%float)]).
Proof.
  intros Ta Tb.
  destruct (token_runs _ Ta) as [Ra Fa]. destruct (token_runs _ Tb) as [Rb Fb].
  destruct Ta as (La & Na & _). destruct Tb as (Lb & Nb & _).
  destruct (token_plain _ La) as (Aa & Sa & Oa & Ca & Ea & Da).
  destruct (token_plain _ Lb) as (Ab & Sb & Ob & Cb & Eb & Db).
  change (a +:+ "/" +:+ b) with (a +:+ String "/" b).
  assert (Hruns : letter_runs (a +:+ String "/" b) = [a; b]).
  { unfold letter_runs. rewrite letter_runs_from_split by reflexivity.
    fold (letter_runs a). now rewrite Ra, Rb. }
  assert (Hs : all_chars (fun c => negb (is_space c)) (a +:+ String "/" b) = true).
  { rewrite all_chars_append. cbn [all_chars]. now rewrite Sa, Sb. }
  unfold _get_unit_exponents.
  rewrite ensure_plain.
  2:{ rewrite all_chars_append. cbn [all_chars]. now rewrite Aa, Ab. }
  2:{ unfold lacks in *. rewrite all_chars_append. cbn [all_chars]. now rewrite Oa, Ob. }
  2:{ unfold lacks in *. rewrite all_chars_append. cbn [all_chars]. now rewrite Ca, Cb. }
  2:{ rewrite Hruns. cbn [List.find] in *.
      destruct (unresolved a); [discriminate|]. exact Fb. }
  cbn [bind]. rewrite (sub_spaces_no_space _ _ Hs), (remove_spaces_no_space _ Hs).
  rewrite remove_brackets_none.
  2:{ apply search_bracket_none. unfold lacks in *. rewrite all_chars_append.
      cbn [all_chars]. now rewrite Oa, Ob. }
  cbn [bind]. rewrite handle_exponents_none.
  2:{ unfold lacks in *. rewrite all_chars_append. cbn [all_chars]. now rewrite Ea, Eb. }
  cbn [bind]. rewrite (handle_divisions_letters_none _ _ _ La).
  change (handle_divisions None (String "/" b)) with (handle_divisions (Some "") b).
  rewrite (handle_divisions_letters_some _ _ _ Lb).
  change ("" +:+ b) with b.
  unfold initial_exponents. rewrite Hruns.
  destruct b as [|y b']; [contradiction|]. cbn [negate].
  apply negate_after_set.
Qed.

Lemma quotient_exponents_witness :
  _get_unit_exponents ("km" +:+ "/" +:+ "h") =
    Ok (if String.eqb "km" "h" then [("km", (-1)%float)]
        else [("km", 1%float); ("h", (-1)%float)]).
Proof.
  apply (quotient_exponents "km" "h"); repeat split; discriminate.
Defined.

(** The characters of an exponent. *)
Definition is_exponent_char (c : ascii) : bool := is_digit c || is_char c "/".

Lemma span_all (p : ascii -> bool) (s a b : string) :
  span p s = (a, b) -> all_chars p a = true /\ s = a +:+ b.
Proof.
  revert a b. induction s as [|c s IH]; intros a b; cbn [span].
  - now intros [= <- <-].
  - destruct (p c) eqn:Ec.
    + destruct (span p s) as [a' b'] eqn:E. intros [= <- <-].
      destruct (IH _ _ eq_refl) as [Ha ->]. cbn [all_chars String.append].
      now rewrite Ec, Ha.
    + now intros [= <- <-].
Qed.

(** A text that is an exponent as a whole is made of digits and at most
    one slash. *)
Lemma match_exponent_whole (x : string) (m : exponent_match) :
  match_exponent x = Some (m, "") -> all_chars is_exponent_char x = true.
Proof.
  assert (Hd : forall s, all_chars is_digit s = true ->
                         all_chars is_exponent_char s = true).
  { intros s. apply all_chars_impl. intros c Hc. unfold is_exponent_char.
    now rewrite Hc. }
  unfold match_exponent. destruct (span is_digit x) as [num rest] eqn:E.
  apply span_all in E as [Hnum ->].
  destruct (is_empty num); [discriminate|].
  destruct rest as [|c rest'].
  - intros _. rewrite append_empty_r. now apply Hd.
  - destruct (Ascii.eqb c "/") eqn:Ec.
    + apply Ascii.eqb_eq in Ec. subst c.
      destruct (span is_digit rest') as [denom rest''] eqn:E'.
      apply span_all in E' as [Hden ->].
      destruct (is_empty denom); [discriminate|].
      intros [= _ ->]. rewrite append_empty_r, all_chars_append.
      cbn [all_chars]. now rewrite (Hd _ Hnum), (Hd _ Hden).
    + assert (Some (Integer num, String c rest') = Some (m, "") -> False)
        by discriminate.
      destruct c as [[] [] [] [] [] [] [] []]; try (intros H'; now apply H in H');
        discriminate.
Qed.

Ltac exponent_class :=
  let c := fresh "c" in
  intros c; destruct c as [[] [] [] [] [] [] [] []]; try discriminate; reflexivity.

Lemma exponent_plain (x : string) :
  all_chars is_exponent_char x = true ->
  all_chars is_allowed x = true /\
  all_chars (fun c => negb (is_space c)) x = true /\
  all_chars (fun c => negb (is_letter c)) x = true /\
  lacks "(" x = true /\ lacks ")" x = true /\ lacks "^" x = true.
Proof.
  intros H. unfold lacks.
  repeat split; revert H; apply all_chars_impl; exponent_class.
Qed.

(** After a slash, digits and slashes negate nothing. *)
Lemma handle_divisions_exponent (run : option string) (x : string) (d : dict) :
  all_chars (fun c => negb (is_letter c)) x = true ->
  run = None \/ run = Some "" ->
  handle_divisions run x d = Ok d.
Proof.
  revert run. induction x as [|c x IH]; intros run.
  - intros _ [->| ->]; reflexivity.
  - cbn [all_chars handle_divisions]. intros [Hc Hx]%andb_prop Hrun.
    assert (Hnext : (if is_char c "/" then Some "" else None) = None \/
                    (if is_char c "/" then Some "" else None) = Some "")
      by (destruct (is_char c "/"); auto).
    destruct Hrun as [->| ->].
    + now apply IH.
    + destruct (is_letter c); [discriminate|]. cbn [negate bind]. now apply IH.
Qed.

(** X14: a unit name with an exponent.  The exponent dict has the one
    entry of the name, with the value of the exponent (a number, or a
    quotient of two numbers) times 1.0; a quotient by zero raises
    [ZeroDivisionError]. *)
Theorem power_exponents (a x : string) (m : exponent_match) :
  is_token a -> match_exponent x = Some (m, "") ->
  _get_unit_exponents (a +:+ "^" +:+ x) =
    let* v := exponent_value m in Ok [(a, (1 * v)%float)].
Proof.
  intros Ta Hm. pose proof (match_exponent_whole _ _ Hm) as Hx.
  destruct (token_runs _ Ta) as [Ra Fa]. destruct Ta as (La & Na & _).
  destruct (token_plain _ La) as (Aa & Sa & Oa & Ca & Ea & Da).
  destruct (exponent_plain _ Hx) as (Ax & Sx & Lx & Ox & Cx & Ex).
  change (a +:+ "^" +:+ x) with (a +:+ String "^" x).
  assert (Hruns : letter_runs (a +:+ String "^" x) = [a]).
  { unfold letter_runs. rewrite letter_runs_from_split by reflexivity.
    fold (letter_runs a). now rewrite Ra, (letter_runs_from_no_letter _ Lx). }
  assert (Hs : all_chars (fun c => negb (is_space c)) (a +:+ String "^" x) = true).
  { rewrite all_chars_append. cbn [all_chars]. now rewrite Sa, Sx. }
  unfold _get_unit_exponents.
  rewrite ensure_plain.
  2:{ rewrite all_chars_append. cbn [all_chars]. now rewrite Aa, Ax. }
  2:{ unfold lacks in *. rewrite all_chars_append. cbn [all_chars]. now rewrite Oa, Ox. }
  2:{ unfold lacks in *. rewrite all_chars_append. cbn [all_chars]. now rewrite Ca, Cx. }
  2:{ now rewrite Hruns. }
  cbn [bind]. rewrite (sub_spaces_no_space _ _ Hs), (remove_spaces_no_space _ Hs).
  rewrite remove_brackets_none.
  2:{ apply search_bracket_none. unfold lacks in *. rewrite all_chars_append.
      cbn [all_chars]. now rewrite Oa, Ox. }
  cbn [bind]. rewrite (handle_exponents_letters _ _ _ _ La).
  change ("" +:+ a) with a. cbn [handle_exponents].
  change (is_letter "^") with false. change (is_char "^" "^") with true.
  destruct a as [|c a']; [contradiction|]. cbn [is_empty negb andb].
  rewrite Hm. unfold initial_exponents. rewrite Hruns.
  cbn [fold_left dict_set]. unfold dict_imul. cbn [dict_get].
  rewrite String.eqb_refl.
  destruct (exponent_value m) as [v|e]; cbn [bind]; [|reflexivity].
  cbn [dict_set]. rewrite String.eqb_refl.
  rewrite (handle_exponents_none _ _ _ Ex). cbn [bind].
  rewrite (handle_divisions_letters_none (String c a') _ _ La).
  change (handle_divisions None (String "^" x)) with (handle_divisions None x).
  apply handle_divisions_exponent; auto.
Qed.

Lemma power_exponents_witness :
  _get_unit_exponents ("m" +:+ "^" +:+ "3/2") =
    let* v := exponent_value (Fraction "3" "2") in Ok [("m", (1 * v)%float)].
Proof.
  apply (power_exponents "m" "3/2" (Fraction "3" "2"));
    [repeat split; discriminate | reflexivity].
Defined.

(** ** Blanks between units *)

(** The number of whitespace characters that [s] starts with. *)
Definition lead (s : string) : nat := String.length (fst (span is_space s)).

Lemma span_space_append (a rest run r : string) (x : ascii) :
  last_char a = Some x -> is_space x = false ->
  span is_space a = (run, r) ->
  r <> "" /\ span is_space (a +:+ rest) = (run, r +:+ rest).
Proof.
  revert run r. induction a as [|c a IH]; intros run r Hl Hx; [discriminate|].
  cbn [span String.append]. destruct (is_space c) eqn:Ec.
  - destruct a as [|c' a'].
    + cbn [last_char] in Hl. injection Hl as ->. congruence.
    + assert (Hl' : last_char (String c' a') = Some x) by exact Hl.
      destruct (span is_space (String c' a')) as [run' r'] eqn:E.
      intros [= <- <-]. destruct (IH _ _ Hl' Hx eq_refl) as [Hne ->].
      now split.
  - intros [= <- <-]. split; [discriminate | reflexivity].
Qed.

(** The rewriting of blanks on a text that ends with a character that
    is not whitespace does not depend on what follows the text. *)
Lemma sub_spaces_append (a rest : string) (x : ascii) :
  last_char a = Some x -> is_space x = false ->
  forall prev skip, skip <= lead a ->
  sub_spaces prev skip (a +:+ rest)
  = sub_spaces prev skip a +:+ sub_spaces (Some x) 0 rest.
Proof.
  intros Hl Hx. induction a as [|c a IH]; [discriminate|].
  destruct a as [|c' a'].
  - cbn [last_char] in Hl. injection Hl as ->.
    intros prev skip Hk. unfold lead in Hk. cbn [span] in Hk. rewrite Hx in Hk.
    cbn in Hk. assert (skip = 0) as -> by lia.
    cbn [String.append sub_spaces]. now rewrite Hx.
  - assert (Hl' : last_char (String c' a') = Some x) by exact Hl.
    specialize (IH Hl').
    set (a := String c' a') in *.
    intros prev skip Hk.
    change (String c a +:+ rest) with (String c (a +:+ rest)).
    cbn [sub_spaces].
    assert (Hlead : lead (String c a) = if is_space c then S (lead a) else 0).
    { unfold lead. cbn [span]. destruct (is_space c); [|reflexivity].
      now destruct (span is_space a). }
    destruct skip as [|k].
    + destruct (span is_space a) as [run r] eqn:E.
      destruct (span_space_append a rest run r x Hl' Hx E) as [Hne ->].
      assert (Hn : String.length run = lead a) by (unfold lead; now rewrite E).
      destruct (is_space c && _).
      * destruct r as [|y r']; [contradiction|].
        change (String y r' +:+ rest) with (String y (r' +:+ rest)).
        cbv iota beta.
        destruct (not_slash_star y).
        -- cbn [String.append]. rewrite IH by lia. reflexivity.
        -- destruct (String.length run) as [|n'] eqn:En.
           ++ cbn [String.append]. rewrite IH by lia. reflexivity.
           ++ cbn [String.append]. rewrite IH by lia. reflexivity.
      * cbn [String.append]. rewrite IH by lia. reflexivity.
    + rewrite Hlead in Hk. destruct (is_space c); [|lia].
      apply IH. lia.
Qed.

Lemma find_char_append (p : ascii -> bool) (a : string) (c : ascii) (b : string) :
  find_char p (a +:+ String c b) =
    match find_char p a with
    | Some r => Some r
    | None => if p c then Some c else find_char p b
    end.
Proof.
  induction a as [|x a IH]; cbn [String.append find_char]; [reflexivity|].
  destruct (p x); [reflexivity | exact IH].
Qed.

(** The validation does not tell a blank from a star. *)
Lemma ensure_blank_star (a b : string) :
  _ensure_si_unit (a +:+ String "*" b) = Ok () ->
  _ensure_si_unit (a +:+ String " " b) = Ok ().
Proof.
  unfold _ensure_si_unit.
  rewrite !find_char_append, !count_char_append.
  unfold letter_runs.
  rewrite !(letter_runs_from_split _ _ _ _ (eq_refl : is_letter " " = false)).
  rewrite !(letter_runs_from_split _ _ _ _ (eq_refl : is_letter "*" = false)).
  destruct (find_char _ a); [discriminate|].
  change (negb (is_allowed "*")) with false. change (negb (is_allowed " ")) with false.
  cbv iota. destruct (find_char _ b); [discriminate|].
  change (count_char "(" (String "*" b)) with (count_char "(" b).
  change (count_char ")" (String "*" b)) with (count_char ")" b).
  change (count_char "(" (String " " b)) with (count_char "(" b).
  change (count_char ")" (String " " b)) with (count_char ")" b).
  destruct (negb _); [discriminate|].
  now destruct (List.find _ _).
Qed.

(** X15: a blank between two units means a product.  In a valid string,
    a star that stands between a character and a character that are
    neither whitespace, [/] nor [*] can be written as a blank: the
    exponents are the same. *)
Theorem blank_is_product (a b : string) (x y : ascii) (b' : string) :
  last_char a = Some x -> b = String y b' ->
  is_space x = false -> not_slash_star x = true ->
  is_space y = false -> not_slash_star y = true ->
  _ensure_si_unit (a +:+ "*" +:+ b) = Ok () ->
  _get_unit_exponents (a +:+ " " +:+ b) = _get_unit_exponents (a +:+ "*" +:+ b).
Proof.
  intros Hl -> Sx Nx Sy Ny Hv.
  change (a +:+ "*" +:+ String y b') with (a +:+ String "*" (String y b')) in *.
  change (a +:+ " " +:+ String y b') with (a +:+ String " " (String y b')).
  unfold _get_unit_exponents.
  rewrite Hv, (ensure_blank_star _ _ Hv). cbn [bind].
  assert (Hi : initial_exponents (a +:+ String " " (String y b'))
               = initial_exponents (a +:+ String "*" (String y b'))).
  { unfold initial_exponents, letter_runs.
    now rewrite !letter_runs_from_split by reflexivity. }
  assert (Hs : sub_spaces None 0 (a +:+ String " " (String y b'))
               = sub_spaces None 0 (a +:+ String "*" (String y b'))).
  { rewrite !(sub_spaces_append a _ x Hl Sx) by lia. f_equal.
    cbn [sub_spaces span]. rewrite Sy, Nx, Ny. cbn [andb String.length].
    change (is_space " ") with true. change (is_space "*") with false.
    cbn [andb]. reflexivity. }
  now rewrite Hi, Hs.
Qed.

Lemma blank_is_product_witness :
  _get_unit_exponents ("kg/(m" +:+ " " +:+ "s^2)")
  = _get_unit_exponents ("kg/(m" +:+ "*" +:+ "s^2)").
Proof.
  apply (blank_is_product "kg/(m" "s^2)" "m" "s" "^2)"); reflexivity.
Defined.

(** ** The factor as a quotient *)

(** The product of the powers of the units of one string. *)
Definition unit_multiplier (float_pow : float -> float -> result float)
    (unit : string) : result float :=
  let* exponents := _get_unit_exponents unit in
  multiply_units float_pow exponents 1.

(** X16: a factor that [unit_conversion_factor] returns is the quotient
    of two numbers that depend on one string each, the product of the
    powers of the source and that of the target; the conversion in the
    other direction is the quotient of the same two numbers the other
    way round. *)
Theorem factor_is_quotient
    (float_pow : float -> float -> result float) (c c' : cache)
    (source_unit target_unit : string) (factor : float) :
  reachable float_pow c -> reachable float_pow c' ->
  fst (unit_conversion_factor float_pow source_unit target_unit c) = Ok factor ->
  exists multiplier_source multiplier_target,
    unit_multiplier float_pow source_unit = Ok multiplier_source /\
    unit_multiplier float_pow target_unit = Ok multiplier_target /\
    factor = (multiplier_source / multiplier_target)%float /\
    fst (unit_conversion_factor float_pow target_unit source_unit c')
    = float_div multiplier_target multiplier_source.
Proof.
  intros Hc Hc'. rewrite (call_reachable _ _ _ _ Hc), (call_reachable _ _ _ _ Hc').
  unfold compute_factor, unit_multiplier.
  destruct (units_compatible source_unit target_unit) as [[]|] eqn:Eu;
    try discriminate.
  rewrite (units_compatible_swap _ _ _ Eu). cbn [bind negb].
  destruct (_get_unit_exponents source_unit) as [se|]; [|discriminate].
  destruct (_get_unit_exponents target_unit) as [te|]; [|discriminate].
  cbn [bind].
  destruct (multiply_units float_pow se 1) as [ms|]; [|discriminate].
  destruct (multiply_units float_pow te 1) as [mt|]; [|discriminate].
  cbn [bind]. intros H. exists ms, mt. repeat split.
  unfold float_div in H. destruct (mt =? 0)%float; [discriminate|].
  now injection H as <-.
Qed.

Lemma factor_is_quotient_witness :
  exists multiplier_source multiplier_target,
    unit_multiplier pow_integral "lb" = Ok multiplier_source /\
    unit_multiplier pow_integral "kg" = Ok multiplier_target /\
    0.45359237%float = (multiplier_source / multiplier_target)%float /\
    fst (unit_conversion_factor pow_integral "kg" "lb" example_cache_2)
    = float_div multiplier_target multiplier_source.
Proof.
  apply (factor_is_quotient pow_integral ∅ example_cache_2 "lb" "kg").
  - constructor.
  - constructor. constructor. constructor.
  - reflexivity.
Defined.
